(** * dconfig: a typed OPTION=value configuration loader

    A shallow embedding of [dconfig.go] and the properties its
    specification states about it, followed by further properties of
    the code and of the [init] of [example/example.go].

    Text is modelled as [string] over 8-bit characters.  The case maps
    ([strings.ToUpper], [strings.ToLower]) and the white-space classes
    ([strings.TrimSpace], the regexp class [\s]) are those of Go on ASCII
    text; characters above 127 are left alone by the case maps and are
    not white space.  The result of [strconv.Atoi] is a 64-bit [int].
    The registry maps are [gmap]s keyed by the upper-cased option name,
    the caller-owned targets are cells of a store addressed by [loc];
    a target passed to a registration call is the address of a variable,
    never the nil pointer. *)

From Stdlib Require Import ZArith Ascii String Bool List Lia.
From stdpp Require Import base option gmap strings list fin_maps.

Local Open Scope string_scope.
Local Open Scope Z_scope.

(** ** Text primitives of the Go standard library *)

Module Text.

Definition code (c : ascii) : Z := Z.of_N (N_of_ascii c).

Definition of_code (z : Z) : ascii := ascii_of_N (Z.to_N z).

Definition is_lower (c : ascii) : bool := (97 <=? code c) && (code c <=? 122).

Definition is_upper (c : ascii) : bool := (65 <=? code c) && (code c <=? 90).

Definition is_digit (c : ascii) : bool := (48 <=? code c) && (code c <=? 57).

(** [unicode.ToUpper] and [unicode.ToLower] on one character. *)
Definition upper_char (c : ascii) : ascii :=
  if is_lower c then of_code (code c - 32) else c.

Definition lower_char (c : ascii) : ascii :=
  if is_upper c then of_code (code c + 32) else c.

Fixpoint map_chars (f : ascii -> ascii) (s : string) : string :=
  match s with
  | EmptyString => EmptyString
  | String c s' => String (f c) (map_chars f s')
  end.

(** [strings.ToUpper] and [strings.ToLower]. *)
Definition ToUpper (s : string) : string := map_chars upper_char s.

Definition ToLower (s : string) : string := map_chars lower_char s.

(** [unicode.IsSpace]: tab, line feed, vertical tab, form feed, carriage
    return and space. *)
Definition IsSpace (c : ascii) : bool :=
  ((9 <=? code c) && (code c <=? 13)) || (code c =? 32).

Fixpoint trim_left (s : string) : string :=
  match s with
  | EmptyString => EmptyString
  | String c s' => if IsSpace c then trim_left s' else s
  end.

(** Removes the white space at the end: the characters of [s] are kept
    up to the last one that is not white space. *)
Fixpoint trim_right (s : string) : string :=
  match s with
  | EmptyString => EmptyString
  | String c s' =>
      match trim_right s' with
      | EmptyString => if IsSpace c then EmptyString else String c EmptyString
      | t => String c t
      end
  end.

(** [strings.TrimSpace]. *)
Definition TrimSpace (s : string) : string := trim_right (trim_left s).

End Text.

(** ** The fragment of Go's [regexp] syntax used by the package

    The seven patterns compiled in [init] use the two anchors, character
    classes, and the greedy repetitions [*], [+] and [?] applied to one
    character class, with capture groups that are not nested.  Go's
    matcher returns the leftmost match, and among the matches that start
    there the one a backtracking search finds first. *)

Module Regexp.

Definition cclass := ascii -> bool.

Inductive regexp : Type :=
| BeginText                     (* beginning of the text *)
| EndText                       (* end of the text *)
| Chr (p : cclass)              (* one character of a class *)
| Star (p : cclass)             (* greedy star of a class *)
| Plus (p : cclass)             (* greedy plus of a class *)
| Quest (p : cclass)            (* greedy optional character *)
| Cat (r1 r2 : regexp)
| Capture (r : regexp).

(** Character classes. *)

Definition lit (a : ascii) : cclass := fun c => Ascii.eqb c a.

(* \s is [\t\n\f\r ] : no vertical tab *)
Definition perl_space : cclass :=
  fun c => lit "009" c || lit "010" c || lit "012" c || lit "013" c || lit " " c.

(* \S *)
Definition perl_nonspace : cclass := fun c => negb (perl_space c).

(* \d *)
Definition perl_digit : cclass := Text.is_digit.

(* . matches every character but the line feed *)
Definition any_char : cclass := fun c => negb (lit "010" c).

(* [^:=] *)
Definition not_colon_eq : cclass := fun c => negb (lit ":" c || lit "=" c).

(* [0-9.] *)
Definition digit_or_dot : cclass := fun c => Text.is_digit c || lit "." c.

Section Matcher.

Context {R : Type}.

(** A continuation receives the offset reached in the text, the text
    that remains there and the groups captured so far. *)
Definition cont : Type := nat -> string -> list string -> option R.

(** Greedy repetition: one more character first, the shorter
    repetition when the rest of the pattern fails after it. *)
Fixpoint star (p : cclass) (i : nat) (s : string)
    (k : nat -> string -> option R) : option R :=
  match s with
  | String c s' =>
      if p c then
        match star p (S i) s' k with
        | Some x => Some x
        | None => k i s
        end
      else k i s
  | EmptyString => k i s
  end.

Fixpoint backtrack (r : regexp) (i : nat) (s : string) (caps : list string)
    (k : cont) : option R :=
  match r with
  | BeginText => if Nat.eqb i 0 then k i s caps else None
  | EndText => match s with EmptyString => k i s caps | _ => None end
  | Chr p =>
      match s with
      | String c s' => if p c then k (S i) s' caps else None
      | EmptyString => None
      end
  | Star p => star p i s (fun j t => k j t caps)
  | Plus p =>
      match s with
      | String c s' =>
          if p c then star p (S i) s' (fun j t => k j t caps) else None
      | EmptyString => None
      end
  | Quest p =>
      match s with
      | String c s' =>
          if p c then
            match k (S i) s' caps with
            | Some x => Some x
            | None => k i s caps
            end
          else k i s caps
      | EmptyString => k i s caps
      end
  | Cat r1 r2 => backtrack r1 i s caps (fun j t cs => backtrack r2 j t cs k)
  | Capture r1 =>
      backtrack r1 i s caps
        (fun j t cs => k j t (app cs [substring 0 (j - i) s]))
  end.

End Matcher.

(** The match that starts at offset [i], where [s] is the text from
    there on: the matched text followed by the captured groups. *)
Definition match_here (r : regexp) (i : nat) (s : string) : option (list string) :=
  backtrack r i s [] (fun j _ cs => Some (substring 0 (j - i) s :: cs)).

(** Leftmost match: the start offsets are tried from left to right. *)
Fixpoint find_from (r : regexp) (i : nat) (s : string) : option (list string) :=
  match match_here r i s with
  | Some m => Some m
  | None =>
      match s with
      | EmptyString => None
      | String _ s' => find_from r (S i) s'
      end
  end.

(** [Regexp.FindStringSubmatch]: [None] stands for the nil slice. *)
Definition FindStringSubmatch (r : regexp) (s : string) : option (list string) :=
  find_from r 0 s.

(** [Regexp.FindString]: the empty string when there is no match. *)
Definition FindString (r : regexp) (s : string) : string :=
  match FindStringSubmatch r s with
  | Some (m :: _) => m
  | _ => EmptyString
  end.

(** [Regexp.MatchString]. *)
Definition MatchString (r : regexp) (s : string) : bool :=
  match FindStringSubmatch r s with
  | Some _ => true
  | None => false
  end.

End Regexp.

Import Text Regexp.

(** The patterns of [init]. *)

(* line 389: beginning of the text, \s repeated, then # *)
Definition comment_re : regexp :=
  Cat BeginText (Cat (Star perl_space) (Chr (lit "#"))).

(* line 390: one \S *)
Definition nonblank_re : regexp := Chr perl_nonspace.

(* line 391: beginning of the text, \s repeated, the group [^:=]+,
   the character =, the group of any characters, end of the text *)
Definition option_re : regexp :=
  Cat BeginText
    (Cat (Star perl_space)
       (Cat (Capture (Plus not_colon_eq))
          (Cat (Chr (lit "="))
             (Cat (Capture (Star any_char)) EndText)))).

(* line 392: an optional minus, then \d+ *)
Definition int_token : regexp := Cat (Quest (lit "-")) (Plus perl_digit).

(* line 393: \d+ *)
Definition uint_token : regexp := Plus perl_digit.

(* line 394: an optional minus, then [0-9.]+ *)
Definition float_token : regexp := Cat (Quest (lit "-")) (Plus digit_or_dot).

(* line 395: [0-9.]+ *)
Definition ufloat_token : regexp := Plus digit_or_dot.

(** ** Flags and option types (lines 14 to 50) *)

Definition STRIP : Z := 1.
Definition UPPER : Z := 2.
Definition LOWER : Z := 4.
Definition UNSIGNED : Z := 8.
Definition NONE : Z := 0.

Definition BOOL : Z := 16.
Definition STRING : Z := 128.
Definition INT : Z := 64.
Definition FLOAT : Z := 32.

Definition all_types : Z := Z.lor (Z.lor (Z.lor STRING INT) FLOAT) BOOL.
Definition disallowed_str_opts : Z := UNSIGNED.
Definition disallowed_int_opts : Z := Z.lor (Z.lor STRIP UPPER) LOWER.
Definition disallowed_float_opts : Z := Z.lor (Z.lor STRIP UPPER) LOWER.

Definition boolean_trues : list string := ["1"; "t"; "true"; "y"; "yes"; "+"].
Definition boolean_falses : list string :=
  ["0"; "f"; "false"; "n"; "no"; "-"; "nil"].

Definition hasAttr (val attrib : Z) : bool :=
  if Z.land val attrib =? 0 then false else true.

(** ** Errors

    The package builds its errors with [errors.New]; the constructors
    keep what the message is made of, [Error] is the message. *)

Inductive error : Type :=
| UnsupportedFlag (kind : string)
| DuplicateOption (uname : string)
| UnrecognizedOption (uname : string)
| CoercionFailure (value kind : string)
| LogicalError (uname value : string)
| NoConfigFileFound
| FileOpenError (path : string).

Definition quoted (s : string) : string :=
  String "034" s +:+ String "034" EmptyString.

Definition Error (e : error) : string :=
  match e with
  | UnsupportedFlag kind => "unsupported flag for " +:+ kind +:+ " option type"
  | DuplicateOption uname => quoted uname +:+ " option already exists"
  | UnrecognizedOption uname => "unrecognized option " +:+ quoted uname
  | CoercionFailure value kind => quoted value +:+ " not a recognizable " +:+ kind
  | LogicalError uname value =>
      "some logical error has led us here: " +:+ uname +:+ "=" +:+ value
  | NoConfigFileFound => "no configuration files found"
  | FileOpenError path => "error opening " +:+ quoted path
  end.

(** ** The registry (lines 52 to 56)

    A target pointer is the address of a caller-owned variable. *)

Definition loc := nat.

Record registry : Type := Registry {
  str_map : gmap string loc;
  int_map : gmap string loc;
  float_map : gmap string loc;
  bool_map : gmap string loc;
  option_flags : gmap string Z
}.

Definition Reset : registry :=
  {| str_map := ∅; int_map := ∅; float_map := ∅; bool_map := ∅;
     option_flags := ∅ |}.

Definition OptionType (r : registry) (opt : string) : Z :=
  let uname := ToUpper opt in
  if bool_decide (is_Some (str_map r !! uname)) then STRING
  else if bool_decide (is_Some (int_map r !! uname)) then INT
  else if bool_decide (is_Some (float_map r !! uname)) then FLOAT
  else if bool_decide (is_Some (bool_map r !! uname)) then BOOL
  else NONE.

Definition optionExists (r : registry) (opt : string) : bool :=
  negb (OptionType r opt =? NONE).

(** The registration calls return the error (or nil) and the registry
    they leave. *)

Definition AddInt (target : loc) (name : string) (flags : Z) (r : registry)
    : option error * registry :=
  if negb (Z.land flags disallowed_int_opts =? 0) then
    (Some (UnsupportedFlag "integer"), r)
  else
    let uname := ToUpper name in
    if optionExists r uname then (Some (DuplicateOption uname), r)
    else
      (None,
       {| str_map := str_map r;
          int_map := <[uname := target]> (int_map r);
          float_map := float_map r;
          bool_map := bool_map r;
          option_flags := <[uname := Z.lor flags INT]> (option_flags r) |}).

Definition AddString (target : loc) (name : string) (flags : Z) (r : registry)
    : option error * registry :=
  if negb (Z.land flags disallowed_str_opts =? 0) then
    (Some (UnsupportedFlag "string"), r)
  else
    let uname := ToUpper name in
    if optionExists r uname then (Some (DuplicateOption uname), r)
    else
      (None,
       {| str_map := <[uname := target]> (str_map r);
          int_map := int_map r;
          float_map := float_map r;
          bool_map := bool_map r;
          option_flags := <[uname := Z.lor flags STRING]> (option_flags r) |}).

Definition AddFloat (target : loc) (name : string) (flags : Z) (r : registry)
    : option error * registry :=
  if negb (Z.land flags disallowed_float_opts =? 0) then
    (Some (UnsupportedFlag "float"), r)
  else
    let uname := ToUpper name in
    if optionExists r uname then (Some (DuplicateOption uname), r)
    else
      (None,
       {| str_map := str_map r;
          int_map := int_map r;
          float_map := <[uname := target]> (float_map r);
          bool_map := bool_map r;
          option_flags := <[uname := Z.lor flags FLOAT]> (option_flags r) |}).

Definition AddBool (target : loc) (name : string) (r : registry)
    : option error * registry :=
  let uname := ToUpper name in
  if optionExists r uname then (Some (DuplicateOption uname), r)
  else
    (None,
     {| str_map := str_map r;
        int_map := int_map r;
        float_map := float_map r;
        bool_map := <[uname := target]> (bool_map r);
        option_flags := <[uname := BOOL]> (option_flags r) |}).

(** ** [strconv.Atoi]

    An optional sign, then decimal digits only, and a value that fits
    the 64-bit [int]; [None] stands for a non-nil error. *)

Fixpoint digits_value (acc : Z) (s : string) : option Z :=
  match s with
  | EmptyString => Some acc
  | String c s' =>
      if is_digit c then digits_value (acc * 10 + (code c - 48)) s' else None
  end.

Definition unsigned_value (s : string) : option Z :=
  match s with
  | EmptyString => None
  | _ => digits_value 0 s
  end.

Definition int_min : Z := - 2 ^ 63.
Definition int_max : Z := 2 ^ 63 - 1.

Definition in_int_range (z : Z) : option Z :=
  if (int_min <=? z) && (z <=? int_max) then Some z else None.

Definition Atoi (s : string) : option Z :=
  match s with
  | String "-" d => n ← unsigned_value d; in_int_range (- n)
  | String "+" d => n ← unsigned_value d; in_int_range n
  | _ => n ← unsigned_value s; in_int_range n
  end.

(** ** The coercion engine and the file scan

    [float64] and [strconv.ParseFloat] belong to the Go run time; the
    development is parametric in them ([None] stands for a non-nil
    error of [ParseFloat]). *)

Inductive outcome (A : Type) : Type :=
| Returns (a : A)
| Panics.

Arguments Returns {A} a.
Arguments Panics {A}.

Inductive line_class : Type :=
| Comment
| Blank
| Entry (key value : string)
| Malformed.

(** The tests of the scanning loop (lines 369 to 381), in their order.
    [matches[1]] and [matches[2]] are the two groups of [option_re]. *)
Definition classify (line : string) : line_class :=
  if MatchString comment_re line then Comment
  else if negb (MatchString nonblank_re line) then Blank
  else
    match FindStringSubmatch option_re line with
    | None => Malformed
    | Some matches => Entry (nth 1 matches EmptyString) (nth 2 matches EmptyString)
    end.

(** The file system as [Configure] sees it: which paths [os.Stat] finds
    and, for a path that [os.Open] opens, the lines that the
    [bufio.Scanner] delivers (none of them holds a line feed). *)
Record filesystem : Type := Filesystem {
  fs_exists : string -> bool;
  fs_lines : string -> option (list string)
}.

(** [os.Stat] fails on the empty path. *)
Definition os_Stat (fs : filesystem) (fname : string) : bool :=
  match fname with
  | EmptyString => false
  | _ => fs_exists fs fname
  end.

Definition os_Open (fs : filesystem) (fname : string) : option (list string) :=
  fs_lines fs fname.

(** The loop of lines 346 to 351: [cfg_file] stays empty when no
    candidate is found. *)
Fixpoint first_found (fs : filesystem) (files : list string) : string :=
  match files with
  | [] => EmptyString
  | fname :: rest => if os_Stat fs fname then fname else first_found fs rest
  end.

Section Engine.

Variable float64 : Type.
Variable ParseFloat : string -> option float64.

Record store : Type := Store {
  strs : gmap loc string;
  ints : gmap loc Z;
  floats : gmap loc float64;
  bools : gmap loc bool
}.

(** The caller's variables and what was written to the error stream. *)
Record world : Type := World {
  mem : store;
  stderr : list string
}.

Definition write_str (l : loc) (v : string) (w : world) : world :=
  {| mem := {| strs := <[l := v]> (strs (mem w)); ints := ints (mem w);
               floats := floats (mem w); bools := bools (mem w) |};
     stderr := stderr w |}.

Definition write_int (l : loc) (v : Z) (w : world) : world :=
  {| mem := {| strs := strs (mem w); ints := <[l := v]> (ints (mem w));
               floats := floats (mem w); bools := bools (mem w) |};
     stderr := stderr w |}.

Definition write_float (l : loc) (v : float64) (w : world) : world :=
  {| mem := {| strs := strs (mem w); ints := ints (mem w);
               floats := <[l := v]> (floats (mem w)); bools := bools (mem w) |};
     stderr := stderr w |}.

Definition write_bool (l : loc) (v : bool) (w : world) : world :=
  {| mem := {| strs := strs (mem w); ints := ints (mem w);
               floats := floats (mem w); bools := <[l := v]> (bools (mem w)) |};
     stderr := stderr w |}.

(** [if verbose { fmt.Fprintf(os.Stderr, ...) }] *)
Definition report (verbose : bool) (msg : string) (w : world) : world :=
  if verbose then {| mem := mem w; stderr := app (stderr w) [msg] |} else w.

Definition newline : string := String "010" EmptyString.

Definition fail (verbose : bool) (e : error) (w : world)
    : outcome (option error * world) :=
  Returns (Some e, report verbose (Error e +:+ newline) w).

(** The assignment through [m[uname]]: the lookup of a name that is not
    in the map gives the nil pointer, and writing through it panics. *)
Definition assign (m : gmap string loc) (uname : string)
    (write : loc -> world -> world) (w : world)
    : outcome (option error * world) :=
  match m !! uname with
  | Some l => Returns (None, write l w)
  | None => Panics
  end.

(** The four branches of [setOption]. *)

Definition setString (r : registry) (uname : string) (flags : Z)
    (value : string) (w : world) : outcome (option error * world) :=
  let value := if hasAttr flags STRIP then TrimSpace value else value in
  let value :=
    if hasAttr flags LOWER then ToLower value
    else if hasAttr flags UPPER then ToUpper value
    else value in
  assign (str_map r) uname (fun l => write_str l value) w.

Definition setInt (r : registry) (uname : string) (flags : Z)
    (value : string) (verbose : bool) (w : world)
    : outcome (option error * world) :=
  let value :=
    if hasAttr flags UNSIGNED then FindString uint_token value
    else FindString int_token value in
  match Atoi value with
  | None => fail verbose (CoercionFailure value "integer") w
  | Some iv => assign (int_map r) uname (fun l => write_int l iv) w
  end.

Definition setFloat (r : registry) (uname : string) (flags : Z)
    (value : string) (verbose : bool) (w : world)
    : outcome (option error * world) :=
  let value :=
    if hasAttr flags UNSIGNED then FindString ufloat_token value
    else FindString float_token value in
  match ParseFloat value with
  | None => fail verbose (CoercionFailure value "float") w
  | Some fv => assign (float_map r) uname (fun l => write_float l fv) w
  end.

Definition setBool (r : registry) (uname : string)
    (value : string) (verbose : bool) (w : world)
    : outcome (option error * world) :=
  let value := TrimSpace value in
  let value := ToLower value in
  if existsb (String.eqb value) boolean_trues then
    assign (bool_map r) uname (fun l => write_bool l true) w
  else if existsb (String.eqb value) boolean_falses then
    assign (bool_map r) uname (fun l => write_bool l false) w
  else fail verbose (CoercionFailure value "boolean") w.

Definition setOption (r : registry) (name value : string) (verbose : bool)
    (w : world) : outcome (option error * world) :=
  let uname := ToUpper name in
  match option_flags r !! uname with
  | None => fail verbose (UnrecognizedOption uname) w
  | Some flags =>
      if hasAttr flags STRING then setString r uname flags value w
      else if hasAttr flags INT then setInt r uname flags value verbose w
      else if hasAttr flags FLOAT then setFloat r uname flags value verbose w
      else if hasAttr flags BOOL then setBool r uname value verbose w
      else fail verbose (LogicalError uname value) w
  end.

(** One turn of the scanning loop; the error of [setOption] is dropped. *)
Definition scan_line (r : registry) (verbose : bool) (line : string)
    (w : world) : outcome world :=
  match classify line with
  | Comment => Returns w
  | Blank => Returns w
  | Malformed =>
      Returns (report verbose
                 ("ignoring malformed line: " +:+ quoted line +:+ newline) w)
  | Entry key value =>
      match setOption r key value verbose w with
      | Returns (_, w') => Returns w'
      | Panics => Panics
      end
  end.

Fixpoint scan (r : registry) (verbose : bool) (lines : list string)
    (w : world) : outcome world :=
  match lines with
  | [] => Returns w
  | line :: rest =>
      match scan_line r verbose line w with
      | Returns w' => scan r verbose rest w'
      | Panics => Panics
      end
  end.

Definition Configure (fs : filesystem) (r : registry) (files : list string)
    (verbose : bool) (w : world) : outcome (option error * world) :=
  let cfg_file := first_found fs files in
  if String.eqb cfg_file EmptyString then Returns (Some NoConfigFileFound, w)
  else
    match os_Open fs cfg_file with
    | None => fail verbose (FileOpenError cfg_file) w
    | Some lines =>
        match scan r verbose lines w with
        | Returns w' => Returns (None, w')
        | Panics => Panics
        end
    end.

End Engine.

Arguments Store {float64}.
Arguments World {float64}.
Arguments strs {float64}.
Arguments ints {float64}.
Arguments floats {float64}.
Arguments bools {float64}.
Arguments mem {float64}.
Arguments stderr {float64}.
Arguments write_str {float64}.
Arguments write_int {float64}.
Arguments write_float {float64}.
Arguments write_bool {float64}.
Arguments report {float64}.
Arguments fail {float64}.
Arguments assign {float64}.
Arguments setString {float64}.
Arguments setInt {float64}.
Arguments setFloat {float64}.
Arguments setBool {float64}.
Arguments setOption {float64}.
Arguments scan_line {float64}.
Arguments scan {float64}.
Arguments Configure {float64}.

(** ** Helpers of the package that no exported function calls

    [sumOfBits] and [boolRead] are defined in [dconfig.go] beside
    [hasAttr]; the numbers are [uint8] values. *)

(** A [uint8] value after an arithmetic operation. *)
Definition uint8 (z : Z) : Z := z mod 256.

(** The loop of [sumOfBits] with [n] turns left. *)
Fixpoint sumOfBits_loop (n : nat) (bmask bit sum : Z) : Z :=
  match n with
  | O => sum
  | S n' =>
      let sum := if negb (Z.land bmask bit =? 0) then uint8 (sum + 1) else sum in
      sumOfBits_loop n' bmask (uint8 (Z.shiftl bit 1)) sum
  end.

Definition sumOfBits (bmask : Z) : Z := sumOfBits_loop 8 bmask 1 0.

(** [boolRead]: the value and the message of the error, if any. *)
Definition boolRead (token : string) : bool * option string :=
  let txt := ToLower token in
  if existsb (String.eqb txt) boolean_trues then (true, None)
  else if existsb (String.eqb txt) boolean_falses then (false, None)
  else (false, Some (quoted token +:+ " is not a recognized boolean value.")).

(** * Specification

    The definitions in which the properties are stated. *)

(** ** Texts *)

Fixpoint take_while (p : cclass) (s : string) : string :=
  match s with
  | String c s' => if p c then String c (take_while p s') else EmptyString
  | EmptyString => EmptyString
  end.

Fixpoint drop_while (p : cclass) (s : string) : string :=
  match s with
  | String c s' => if p c then drop_while p s' else s
  | EmptyString => EmptyString
  end.

Fixpoint all_chars (p : cclass) (s : string) : bool :=
  match s with
  | String c s' => p c && all_chars p s'
  | EmptyString => true
  end.

Fixpoint drop (n : nat) (s : string) : string :=
  match n, s with
  | S n', String _ s' => drop n' s'
  | _, _ => s
  end.

Definition last_char (s : string) : string :=
  match String.length s with
  | O => EmptyString
  | S n => substring n 1 s
  end.

(** ** The search of the matcher *)

(** The attempts of a greedy repetition that may take up to [n]
    characters: [n] of them first, then one fewer, down to none. *)
Fixpoint try_down {R : Type} (k : nat -> string -> option R) (i : nat)
    (s : string) (n : nat) : option R :=
  match k (i + n)%nat (drop n s) with
  | Some x => Some x
  | None =>
      match n with
      | O => None
      | S n' => try_down k i s n'
      end
  end.

Definition found (tok : string) : option (list string) :=
  match tok with
  | EmptyString => None
  | _ => Some [tok]
  end.

Definition groups12 (m : option (list string)) : option (string * string) :=
  match m with
  | Some ms => Some (nth 1 ms EmptyString, nth 2 ms EmptyString)
  | None => None
  end.

(** [option_re] after the white space at the beginning of the line. *)
Definition option_rest : regexp :=
  Cat (Capture (Plus not_colon_eq))
    (Cat (Chr (lit "=")) (Cat (Capture (Star any_char)) EndText)).

(** What [option_rest] captures at the text [t]. *)
Definition entry_at (t : string) : option (string * string) :=
  match take_while not_colon_eq t, drop_while not_colon_eq t with
  | String a k, String e v =>
      if lit "=" e && all_chars any_char v then Some (String a k, v) else None
  | _, _ => None
  end.

(** The attempts of the white-space repetition in front of the key. *)
Fixpoint opt_match (s : string) : option (string * string) :=
  match s with
  | String c s' =>
      if perl_space c then
        match opt_match s' with
        | Some kv => Some kv
        | None => entry_at s
        end
      else entry_at s
  | EmptyString => None
  end.

(** ** Lines *)

(** What the three tests of the scanning loop amount to. *)

Definition is_comment (line : string) : bool :=
  match drop_while perl_space line with
  | String c _ => lit "#" c
  | EmptyString => false
  end.

Definition is_blank (line : string) : bool := all_chars perl_space line.

(** The key that [option_re] captures from the longest prefix [pre] of
    the line without [:] and [=]: the white space at its beginning
    belongs to the repetition before the group, except that the group
    keeps the last character of a prefix made of white space only. *)
Definition key_of_prefix (pre : string) : string :=
  match drop_while perl_space pre with
  | EmptyString => last_char pre
  | k => k
  end.

Definition entry_of (line : string) : option (string * string) :=
  match take_while not_colon_eq line, drop_while not_colon_eq line with
  | String a pre, String e v =>
      if lit "=" e then Some (key_of_prefix (String a pre), v) else None
  | _, _ => None
  end.

(** The classification that the loop computes. *)
Definition classify_spec (line : string) : line_class :=
  if is_comment line then Comment
  else if is_blank line then Blank
  else
    match entry_of line with
    | Some (key, value) => Entry key value
    | None => Malformed
    end.

(** The classification as the specification words it: the key is the
    longest prefix of the line without [:] and [=]. *)
Definition longest_prefix_entry (line : string) : option (string * string) :=
  match take_while not_colon_eq line, drop_while not_colon_eq line with
  | String a pre, String e v =>
      if lit "=" e then Some (String a pre, v) else None
  | _, _ => None
  end.

Definition classify_as_stated (line : string) : line_class :=
  if is_comment line then Comment
  else if is_blank line then Blank
  else
    match longest_prefix_entry line with
    | Some (key, value) => Entry key value
    | None => Malformed
    end.

(** ** Tokens *)

(** The leftmost run of digits. *)
Fixpoint first_uint (s : string) : string :=
  match s with
  | EmptyString => EmptyString
  | String c s' => if perl_digit c then take_while perl_digit s else first_uint s'
  end.

(** The leftmost run of digits, with the minus sign that stands right
    in front of it. *)
Fixpoint first_int (s : string) : string :=
  match s with
  | EmptyString => EmptyString
  | String c s' =>
      if perl_digit c then take_while perl_digit s
      else if lit "-" c && (match s' with String d _ => perl_digit d | _ => false end)
      then String c (take_while perl_digit s')
      else first_int s'
  end.

(** The texts that the two integer token patterns match. *)
Definition uint_shape (t : string) : bool :=
  match t with
  | EmptyString => false
  | _ => all_chars perl_digit t
  end.

Definition int_shape (t : string) : bool :=
  match t with
  | String c d => if lit "-" c then uint_shape d else uint_shape t
  | EmptyString => false
  end.

(** [tok] is a match in [s] such that every match starts after it, or
    where it starts and is not longer. *)
Definition leftmost_longest (shape : string -> bool) (s tok : string) : Prop :=
  exists pre post,
    s = pre +:+ tok +:+ post /\ shape tok = true /\
    forall pre' t' post',
      s = pre' +:+ t' +:+ post' -> shape t' = true ->
      (String.length pre < String.length pre')%nat \/
      (String.length pre' = String.length pre /\
       String.length t' <= String.length tok)%nat.

Definition no_occurrence (shape : string -> bool) (s : string) : Prop :=
  forall pre t post, s = pre +:+ t +:+ post -> shape t = false.

(** [tok] is the leftmost match of the token pattern in [s], and the
    empty text when [s] has no match. *)
Definition first_match (shape : string -> bool) (s tok : string) : Prop :=
  match tok with
  | EmptyString => no_occurrence shape s
  | _ => leftmost_longest shape s tok
  end.


(** The token that an Integer option with flags [fl] extracts. *)
Definition int_token_of (fl : Z) (value : string) : string :=
  if hasAttr fl UNSIGNED then first_uint value else first_int value.

(** ** Histories of registration calls *)

Inductive call : Type :=
| CallReset
| CallAddString (target : loc) (name : string) (flags : Z)
| CallAddInt (target : loc) (name : string) (flags : Z)
| CallAddFloat (target : loc) (name : string) (flags : Z)
| CallAddBool (target : loc) (name : string).

Definition do_call (r : registry) (c : call) : option error * registry :=
  match c with
  | CallReset => (None, Reset)
  | CallAddString t n f => AddString t n f r
  | CallAddInt t n f => AddInt t n f r
  | CallAddFloat t n f => AddFloat t n f r
  | CallAddBool t n => AddBool t n r
  end.

(** The registry after a sequence of calls; [init] leaves it reset. *)
Definition run (cs : list call) : registry :=
  fold_left (fun r c => (do_call r c).2) cs Reset.

(** The flags argument of the call ([AddBool] and [Reset] take none). *)
Definition call_flags (c : call) : Z :=
  match c with
  | CallAddString _ _ f | CallAddInt _ _ f | CallAddFloat _ _ f => f
  | _ => NONE
  end.

(** The flags argument of the call has no type bit. *)
Definition modifiers_only (c : call) : Prop :=
  Z.land (call_flags c) all_types = 0.

Inductive otype : Type := TString | TInt | TFloat | TBool.

#[global] Instance otype_eq_dec : EqDecision otype.
Proof. solve_decision. Defined.

Definition type_bit (ty : otype) : Z :=
  match ty with
  | TString => STRING
  | TInt => INT
  | TFloat => FLOAT
  | TBool => BOOL
  end.

Definition target_map (ty : otype) (r : registry) : gmap string loc :=
  match ty with
  | TString => str_map r
  | TInt => int_map r
  | TFloat => float_map r
  | TBool => bool_map r
  end.

(** [uname] is declared with type [ty], modifier flags [fl] and target
    [l], and under no other type. *)
Definition declared (r : registry) (uname : string) (ty : otype) (fl : Z)
    (l : loc) : Prop :=
  option_flags r !! uname = Some (Z.lor fl (type_bit ty)) /\
  Z.land fl all_types = 0 /\
  target_map ty r !! uname = Some l /\
  forall ty', ty' <> ty -> target_map ty' r !! uname = None.

Definition undeclared (r : registry) (uname : string) : Prop :=
  option_flags r !! uname = None /\
  forall ty, target_map ty r !! uname = None.

Definition well_formed (r : registry) : Prop :=
  forall uname,
    undeclared r uname \/ exists ty fl l, declared r uname ty fl l.

(** The number of type maps that hold [uname]. *)
Definition declarations (r : registry) (uname : string) : nat :=
  ((if bool_decide (is_Some (str_map r !! uname)) then 1 else 0) +
   (if bool_decide (is_Some (int_map r !! uname)) then 1 else 0) +
   (if bool_decide (is_Some (float_map r !! uname)) then 1 else 0) +
   (if bool_decide (is_Some (bool_map r !! uname)) then 1 else 0))%nat.

(** The two registries agree on the name [u]. *)
Definition same_at (r r' : registry) (u : string) : Prop :=
  option_flags r' !! u = option_flags r !! u /\
  forall ty, target_map ty r' !! u = target_map ty r !! u.

(** ** Runs and their effect on the caller's variables *)

Section Effect.

Context {float64 : Type}.

(** The branch of [setOption] for each type. *)
Definition branch (ParseFloat : string -> option float64) (ty : otype)
    (r : registry) (uname : string) (flags : Z) (value : string)
    (verbose : bool) (w : world float64)
    : outcome (option error * world float64) :=
  match ty with
  | TString => setString r uname flags value w
  | TInt => setInt r uname flags value verbose w
  | TFloat => setFloat ParseFloat r uname flags value verbose w
  | TBool => setBool r uname value verbose w
  end.

(** A per-line problem: the line is malformed, or [setOption] returns
    an error for its entry (the option is not declared, or the value
    cannot be coerced). *)
Definition line_problem (ParseFloat : string -> option float64)
    (r : registry) (verbose : bool) (line : string) (w : world float64) : Prop :=
  classify line = Malformed \/
  exists key value e w',
    classify line = Entry key value /\
    setOption ParseFloat r key value verbose w = Returns (Some e, w').

(** One assignment through a target pointer. *)
Inductive write : Type :=
| WStr (l : loc) (v : string)
| WInt (l : loc) (v : Z)
| WFloat (l : loc) (v : float64)
| WBool (l : loc) (v : bool).

Definition apply_write (m : store float64) (x : write) : store float64 :=
  match x with
  | WStr l v => {| strs := <[l := v]> (strs m); ints := ints m;
                   floats := floats m; bools := bools m |}
  | WInt l v => {| strs := strs m; ints := <[l := v]> (ints m);
                   floats := floats m; bools := bools m |}
  | WFloat l v => {| strs := strs m; ints := ints m;
                     floats := <[l := v]> (floats m); bools := bools m |}
  | WBool l v => {| strs := strs m; ints := ints m;
                    floats := floats m; bools := <[l := v]> (bools m) |}
  end.

Definition apply_writes (ws : list write) (m : store float64) : store float64 :=
  fold_left apply_write ws m.

(** What a run leaves: the writes [ws] applied in order, the
    diagnostics [msgs] appended. *)
Definition after (ws : list write) (msgs : list string) (w : world float64)
    : world float64 :=
  {| mem := apply_writes ws (mem w); stderr := app (stderr w) msgs |}.

(** A step that never reads the caller's variables: it panics whatever
    they hold, or it returns after the same writes and diagnostics. *)
Definition blind (f : world float64 -> outcome (world float64)) : Prop :=
  (forall w, f w = Panics) \/
  exists ws msgs, forall w, f w = Returns (after ws msgs w).

(** The same for a step that returns an error: an error comes with no
    write. *)
Definition blind_err
    (f : world float64 -> outcome (option error * world float64)) : Prop :=
  (forall w, f w = Panics) \/
  exists e ws msgs,
    (e = None \/ ws = []) /\ forall w, f w = Returns (e, after ws msgs w).

End Effect.

(** ** A sample configuration *)

Definition sample_calls : list call :=
  [CallReset; CallAddInt 0%nat "count" UNSIGNED;
   CallAddString 1%nat "motto" (Z.lor UPPER LOWER);
   CallAddBool 2%nat "debug"; CallAddInt 3%nat "X" NONE].

Definition sample_lines : list string :=
  ["# sample"; ""; "x=7"; "x = 8"; "debug=yes"; "x=notanumber"; "  count=-42"].

(** Only [b.conf] exists. *)
Definition sample_fs : filesystem :=
  Filesystem (fun p => String.eqb p "b.conf")
    (fun p => if String.eqb p "b.conf" then Some sample_lines else None).

(** The variable of X holds 4. *)
Definition sample_world : world Z :=
  World (Store ∅ (<[3%nat := 4]> ∅) ∅ ∅) [].

Definition sample_floats : string -> option Z := fun _ => None.

(** [AddInt] called with the type bit STRING as its flags argument. *)
Definition mistyped_registry : registry := (AddInt 0%nat "a" STRING Reset).2.

(** ** Bit counts, tokens of Float options, calls and frames *)

(** The number of bits set among the eight lowest. *)
Definition popcount8 (b : Z) : Z :=
  fold_right (fun i acc => Z.b2z (Z.testbit b (Z.of_nat i)) + acc) 0 (seq 0 8).

(** The characters of ASCII: on a text made of them the case maps and
    the white-space classes above are those of Go. *)
Definition is_ascii : cclass := fun c => code c <? 128.






(** The name argument of the call ([Reset] takes none). *)
Definition call_name (c : call) : string :=
  match c with
  | CallReset => EmptyString
  | CallAddString _ n _ | CallAddInt _ n _ | CallAddFloat _ n _
  | CallAddBool _ n => n
  end.

(** The flags that the call refuses. *)
Definition call_mask (c : call) : Z :=
  match c with
  | CallAddString _ _ _ => disallowed_str_opts
  | CallAddInt _ _ _ => disallowed_int_opts
  | CallAddFloat _ _ _ => disallowed_float_opts
  | _ => NONE
  end.

(** The type constant of the options that the call declares. *)
Definition call_type (c : call) : Z :=
  match c with
  | CallReset => NONE
  | CallAddString _ _ _ => STRING
  | CallAddInt _ _ _ => INT
  | CallAddFloat _ _ _ => FLOAT
  | CallAddBool _ _ => BOOL
  end.

(** [l] is the target of an option in the map [m]. *)
Definition targeted (m : gmap string loc) (l : loc) : Prop :=
  exists uname, m !! uname = Some l.

(** The variables that are no target of an option of their type hold in
    [w'] what they hold in [w]. *)
Definition untouched {float64 : Type} (r : registry) (w w' : world float64)
    : Prop :=
  (forall l, ~ targeted (str_map r) l ->
             strs (mem w') !! l = strs (mem w) !! l) /\
  (forall l, ~ targeted (int_map r) l ->
             ints (mem w') !! l = ints (mem w) !! l) /\
  (forall l, ~ targeted (float_map r) l ->
             floats (mem w') !! l = floats (mem w) !! l) /\
  (forall l, ~ targeted (bool_map r) l ->
             bools (mem w') !! l = bools (mem w) !! l).

(** Two runs end alike: both panic, or both return, with the same error
    and the same values of the variables. *)
Definition same_outcome {float64 : Type}
    (o1 o2 : outcome (option error * world float64)) : Prop :=
  match o1, o2 with
  | Returns (e1, w1), Returns (e2, w2) => e1 = e2 /\ mem w1 = mem w2
  | Panics, Panics => True
  | _, _ => False
  end.

Definition same_scan {float64 : Type} (o1 o2 : outcome (world float64)) : Prop :=
  match o1, o2 with
  | Returns w1, Returns w2 => mem w1 = mem w2
  | Panics, Panics => True
  | _, _ => False
  end.

(** The error stream is as it was when the run returns. *)
Definition silent {float64 : Type} (w : world float64)
    (o : outcome (option error * world float64)) : Prop :=
  match o with
  | Returns (_, w') => stderr w' = stderr w
  | Panics => True
  end.


(** Only [c.conf] exists, and holds comments and blank lines. *)
Definition comment_fs : filesystem :=
  Filesystem (fun p => String.eqb p "c.conf")
    (fun p => if String.eqb p "c.conf"
              then Some ["# comment"; ""; "   # x=7"; "  "] else None).

(** ** The example program ([example/example.go])

    The six variables of the program and what its [init] does: the
    declarations, then [Configure] on [example.conf], then the report
    of its error. *)

Module Example.

Definition number : loc := 0%nat.
Definition pl_noun : loc := 1%nat.
Definition t_or_f : loc := 2%nat.
Definition verb : loc := 3%nat.
Definition amt : loc := 4%nat.
Definition mass_noun : loc := 5%nat.

Definition calls : list call :=
  [CallReset;
   CallAddInt number "integer_value" NONE;
   CallAddString pl_noun "plural_noun" STRIP;
   CallAddBool t_or_f "true_or_false";
   CallAddString verb "verb" STRIP;
   CallAddFloat amt "real_valued_quantity" NONE;
   CallAddString mass_noun "mass_noun" STRIP].

(** [init] after the registration calls [earlier] of other packages. *)
Definition init {float64 : Type} (ParseFloat : string -> option float64)
    (earlier : list call) (fs : filesystem) (w : world float64)
    : outcome (world float64) :=
  match Configure ParseFloat fs (run (earlier ++ calls)) ["example.conf"] true w with
  | Returns (Some err, w') =>
      Returns (report true
                 ("Error reading configuration file: " +:+ Error err +:+ newline)
                 w')
  | Returns (None, w') => Returns w'
  | Panics => Panics
  end.

(** The options of the program, with their types. *)
Definition options : list (string * Z) :=
  [("integer_value", INT); ("plural_noun", STRING); ("true_or_false", BOOL);
   ("verb", STRING); ("real_valued_quantity", FLOAT); ("mass_noun", STRING)].

End Example.

(** ** The stored text of a String option, character by character *)







(** Only [m.conf] exists; its second line is an entry of [a]. *)
Definition mistyped_fs : filesystem :=
  Filesystem (fun p => String.eqb p "m.conf")
    (fun p => if String.eqb p "m.conf" then Some ["# sample"; "a=1"] else None).

(** * Properties *)

(** ** Text *)

Lemma upper_char_idem (c : ascii) : upper_char (upper_char c) = upper_char c.
Proof. destruct c as [[] [] [] [] [] [] [] []]; reflexivity. Qed.

Lemma ToUpper_idem (s : string) : ToUpper (ToUpper s) = ToUpper s.
Proof.
  unfold ToUpper. induction s as [|c s IH]; simpl; [reflexivity|].
  rewrite IH, upper_char_idem. reflexivity.
Qed.

(** ** The matcher *)

Lemma append_cons (c : ascii) (a b : string) :
  String c a +:+ b = String c (a +:+ b).
Proof. reflexivity. Qed.

Lemma append_nil (b : string) : EmptyString +:+ b = b.
Proof. reflexivity. Qed.

Lemma take_drop_while (p : cclass) (s : string) :
  take_while p s +:+ drop_while p s = s.
Proof.
  induction s as [|c s IH]; simpl; [reflexivity|].
  destruct (p c); [rewrite append_cons, IH|]; reflexivity.
Qed.

Lemma drop_take_while (p : cclass) (s : string) :
  drop (String.length (take_while p s)) s = drop_while p s.
Proof.
  induction s as [|c s IH]; simpl; [reflexivity|].
  destruct (p c); simpl; [exact IH|reflexivity].
Qed.

Lemma substring_prefix (a b : string) :
  substring 0 (String.length a) (a +:+ b) = a.
Proof.
  induction a as [|c a IH]; simpl.
  - destruct b; reflexivity.
  - rewrite IH. reflexivity.
Qed.

Lemma try_down_shift {R : Type} (k : nat -> string -> option R) i c s n :
  try_down k i (String c s) (S n) =
  match try_down k (S i) s n with
  | Some x => Some x
  | None => k i (String c s)
  end.
Proof.
  induction n as [|n IH].
  - cbn [try_down drop]. rewrite !Nat.add_0_r, Nat.add_1_r.
    destruct (k (S i) s); [reflexivity|].
    destruct (k i (String c s)); reflexivity.
  - change (try_down k i (String c s) (S (S n))) with
      (match k (i + S (S n))%nat (drop (S n) s) with
       | Some x => Some x
       | None => try_down k i (String c s) (S n)
       end).
    rewrite IH. cbn [try_down].
    replace (i + S (S n))%nat with (S i + S n)%nat by lia.
    destruct (k (S i + S n)%nat (drop (S n) s)); reflexivity.
Qed.

Lemma star_try_down {R : Type} (p : cclass) (k : nat -> string -> option R) s :
  forall i, star p i s k = try_down k i s (String.length (take_while p s)).
Proof.
  induction s as [|c s IH]; intros i.
  - cbn. rewrite Nat.add_0_r. destruct (k i ""); reflexivity.
  - cbn [star take_while]. destruct (p c) eqn:Hp.
    + rewrite IH. symmetry. apply try_down_shift.
    + cbn. rewrite Nat.add_0_r.
      destruct (k i (String c s)); reflexivity.
Qed.

(** The longest repetition is the match whenever the rest of the
    pattern succeeds after it. *)
Lemma star_longest {R : Type} (p : cclass) (k : nat -> string -> option R) i s x :
  k (i + String.length (take_while p s))%nat (drop_while p s) = Some x ->
  star p i s k = Some x.
Proof.
  intros H. rewrite star_try_down.
  rewrite <- (drop_take_while p s) in H.
  destruct (String.length (take_while p s)); cbn [try_down]; rewrite H; reflexivity.
Qed.

(** A repetition followed by something that rejects every text
    starting with a character of the class is never shortened. *)
Lemma star_committed {R : Type} (p : cclass) (k : nat -> string -> option R) s :
  (forall j c t, p c = true -> k j (String c t) = None) ->
  forall i, star p i s k =
            k (i + String.length (take_while p s))%nat (drop_while p s).
Proof.
  intros Hk. induction s as [|c s IH]; intros i.
  - cbn. rewrite Nat.add_0_r. reflexivity.
  - cbn [star take_while drop_while]. destruct (p c) eqn:Hp.
    + rewrite IH, (Hk i c s Hp). cbn [String.length].
      replace (S i + String.length (take_while p s))%nat
        with (i + S (String.length (take_while p s)))%nat by lia.
      destruct (k _ _); reflexivity.
    + cbn. rewrite Nat.add_0_r. reflexivity.
Qed.

(** ** The patterns of the scanning loop *)

Lemma find_from_anchored (r : regexp) (s : string) (i : nat) :
  find_from (Cat BeginText r) (S i) s = None.
Proof.
  revert i. induction s as [|c s IH]; intros i; cbn; [reflexivity|apply IH].
Qed.

Lemma find_anchored (r : regexp) (s : string) :
  FindStringSubmatch (Cat BeginText r) s = match_here (Cat BeginText r) 0 s.
Proof.
  unfold FindStringSubmatch. destruct s as [|c s]; cbn [find_from].
  - destruct (match_here _ _ _); reflexivity.
  - rewrite find_from_anchored. destruct (match_here _ _ _); reflexivity.
Qed.

Lemma comment_re_spec (line : string) :
  MatchString comment_re line = is_comment line.
Proof.
  unfold MatchString, comment_re. rewrite find_anchored.
  unfold match_here. cbn [backtrack Nat.eqb].
  rewrite star_committed.
  - unfold is_comment. destruct (drop_while perl_space line) as [|c t]; [reflexivity|].
    destruct (lit "#" c); reflexivity.
  - intros j c t Hc. destruct (lit "#" c) eqn:E; [|reflexivity].
    unfold lit in E. apply Ascii.eqb_eq in E. subst c. discriminate Hc.
Qed.

Lemma nonblank_find (s : string) (i : nat) :
  match find_from nonblank_re i s with Some _ => true | None => false end
  = negb (all_chars perl_space s).
Proof.
  revert i. induction s as [|c s IH]; intros i; [reflexivity|].
  cbn [find_from all_chars]. unfold match_here, nonblank_re at 1.
  cbn [backtrack]. unfold perl_nonspace.
  destruct (perl_space c); cbn [negb andb]; [apply IH|reflexivity].
Qed.

Lemma nonblank_re_spec (line : string) :
  MatchString nonblank_re line = negb (is_blank line).
Proof. apply nonblank_find. Qed.

Lemma substring_take_while (p : cclass) (s : string) :
  substring 0 (String.length (take_while p s)) s = take_while p s.
Proof.
  rewrite <- (take_drop_while p s) at 2. apply substring_prefix.
Qed.

Lemma all_chars_take_while (p : cclass) (s : string) :
  all_chars p s = true -> take_while p s = s /\ drop_while p s = EmptyString.
Proof.
  induction s as [|c s IH]; cbn; [auto|].
  destruct (p c); cbn; [|discriminate].
  intros H. destruct (IH H) as [-> ->]. auto.
Qed.

Lemma drop_while_nil_all (p : cclass) (s : string) :
  drop_while p s = EmptyString -> all_chars p s = true.
Proof.
  induction s as [|c s IH]; cbn; [auto|].
  destruct (p c); cbn; [exact IH|discriminate].
Qed.

Lemma option_rest_spec (whole : nat -> string) (j : nat) (t : string) :
  groups12 (backtrack option_rest j t []
              (fun j' _ cs => Some (whole j' :: cs))) = entry_at t.
Proof.
  unfold option_rest, entry_at. cbn [backtrack].
  destruct t as [|c t1]; [reflexivity|].
  cbn [take_while drop_while]. destruct (not_colon_eq c) eqn:Hc; [|reflexivity].
  rewrite star_committed.
  2:{ intros j0 c0 t0 H0. unfold not_colon_eq in H0.
      destruct (lit "=" c0); [|reflexivity].
      rewrite orb_true_r in H0. discriminate H0. }
  destruct (drop_while not_colon_eq t1) as [|e v] eqn:Hd; [reflexivity|].
  destruct (lit "=" e); [|reflexivity]. cbn [andb].
  rewrite star_committed.
  2:{ intros; reflexivity. }
  destruct (all_chars any_char v) eqn:Hv.
  - destruct (all_chars_take_while _ _ Hv) as [Htw Hdw]. rewrite Hdw, Htw.
    cbn [groups12 nth app]. f_equal. f_equal.
    + replace (S j + String.length (take_while not_colon_eq t1) - j)%nat
        with (S (String.length (take_while not_colon_eq t1))) by lia.
      cbn [substring]. rewrite substring_take_while. reflexivity.
    + match goal with |- substring 0 ?n v = v =>
        replace n with (String.length v) by lia end.
      rewrite <- (substring_prefix v EmptyString) at 3.
      f_equal. clear. induction v; [reflexivity|]. rewrite append_cons. f_equal. assumption.
  - destruct (drop_while any_char v) eqn:Hdw; [|reflexivity].
    apply drop_while_nil_all in Hdw. congruence.
Qed.

Lemma star_space_opt_match (whole : nat -> string) (s : string) :
  forall i,
    groups12 (star perl_space i s
                (fun j t => backtrack option_rest j t []
                              (fun j' _ cs => Some (whole j' :: cs))))
    = opt_match s.
Proof.
  induction s as [|c s IH]; intros i.
  - cbn [star opt_match]. apply option_rest_spec.
  - cbn [star opt_match]. destruct (perl_space c).
    + rewrite <- (IH (S i)).
      destruct (star perl_space (S i) s _); [reflexivity|].
      cbn [groups12]. apply option_rest_spec.
    + apply option_rest_spec.
Qed.

Lemma option_re_groups (line : string) :
  groups12 (FindStringSubmatch option_re line) = opt_match line.
Proof.
  unfold option_re. rewrite find_anchored. unfold match_here.
  cbn [backtrack Nat.eqb].
  apply (star_space_opt_match (fun j => substring 0 (j - 0) line)).
Qed.

Lemma all_chars_drop_while (p q : cclass) (s : string) :
  all_chars q s = true -> all_chars q (drop_while p s) = true.
Proof.
  induction s as [|c s IH]; cbn; [auto|].
  destruct (p c); [|auto].
  intros H. apply andb_true_iff in H. apply IH, H.
Qed.

Lemma space_not_colon_eq (c : ascii) :
  perl_space c = true -> not_colon_eq c = true.
Proof.
  unfold perl_space, not_colon_eq, lit. intros H.
  destruct (Ascii.eqb c ":") eqn:E1.
  { apply Ascii.eqb_eq in E1. subst c. discriminate H. }
  destruct (Ascii.eqb c "=") eqn:E2.
  { apply Ascii.eqb_eq in E2. subst c. discriminate H. }
  reflexivity.
Qed.

Lemma last_char_cons (c a : ascii) (s : string) :
  last_char (String c (String a s)) = last_char (String a s).
Proof. reflexivity. Qed.

Lemma key_of_prefix_space (c a : ascii) (s : string) :
  perl_space c = true ->
  key_of_prefix (String c (String a s)) = key_of_prefix (String a s).
Proof.
  intros Hc. unfold key_of_prefix. cbn [drop_while]. rewrite Hc.
  rewrite last_char_cons. reflexivity.
Qed.

Lemma opt_match_entry_of (line : string) :
  all_chars any_char line = true -> opt_match line = entry_of line.
Proof.
  induction line as [|c s IH]; intros Hall; [reflexivity|].
  cbn [all_chars] in Hall. apply andb_true_iff in Hall as [_ Hs].
  specialize (IH Hs).
  assert (Hv : forall e v, drop_while not_colon_eq s = String e v ->
                           all_chars any_char v = true).
  { intros e v E. pose proof (all_chars_drop_while not_colon_eq _ _ Hs) as H.
    rewrite E in H. cbn in H. apply andb_true_iff in H. apply H. }
  cbn [opt_match]. unfold entry_at, entry_of in *. cbn [take_while drop_while].
  destruct (perl_space c) eqn:Hsp.
  - rewrite (space_not_colon_eq _ Hsp). rewrite IH.
    destruct (drop_while not_colon_eq s) as [|e v] eqn:Hd.
    { destruct (take_while not_colon_eq s); reflexivity. }
    rewrite (Hv e v eq_refl), andb_true_r.
    destruct (lit "=" e).
    + destruct (take_while not_colon_eq s) as [|a pre].
      * unfold key_of_prefix. cbn [drop_while]. rewrite Hsp. reflexivity.
      * rewrite (key_of_prefix_space _ _ _ Hsp). reflexivity.
    + destruct (take_while not_colon_eq s); reflexivity.
  - destruct (not_colon_eq c); [|reflexivity].
    destruct (drop_while not_colon_eq s) as [|e v] eqn:Hd; [reflexivity|].
    rewrite (Hv e v eq_refl), andb_true_r.
    destruct (lit "=" e); [|reflexivity].
    unfold key_of_prefix. cbn [drop_while]. rewrite Hsp. reflexivity.
Qed.

Lemma option_re_spec (line : string) :
  all_chars any_char line = true ->
  groups12 (FindStringSubmatch option_re line) = entry_of line.
Proof.
  intros H. rewrite option_re_groups. apply opt_match_entry_of, H.
Qed.

(** ** The token patterns *)

Lemma plus_here (p : cclass) (i : nat) (c : ascii) (s : string) :
  p c = true ->
  match_here (Plus p) i (String c s) = Some [String c (take_while p s)].
Proof.
  intros Hc. unfold match_here. cbn [backtrack]. rewrite Hc.
  apply star_longest.
  replace (S i + String.length (take_while p s) - i)%nat
    with (S (String.length (take_while p s))) by lia.
  cbn [substring]. rewrite substring_take_while. reflexivity.
Qed.

Lemma plus_here_fail (p : cclass) (i : nat) (c : ascii) (s : string) :
  p c = false -> match_here (Plus p) i (String c s) = None.
Proof. intros Hc. unfold match_here. cbn [backtrack]. rewrite Hc. reflexivity. Qed.

Lemma uint_token_find (s : string) :
  forall i, find_from uint_token i s = found (first_uint s).
Proof.
  unfold uint_token. induction s as [|c s IH]; intros i; [reflexivity|].
  cbn [find_from first_uint]. destruct (perl_digit c) eqn:Hc.
  - rewrite plus_here by exact Hc. cbn [take_while]. rewrite Hc. reflexivity.
  - rewrite plus_here_fail by exact Hc. apply IH.
Qed.

Lemma FindString_found (r : regexp) (s tok : string) :
  find_from r 0 s = found tok -> FindString r s = tok.
Proof.
  unfold FindString, FindStringSubmatch. intros ->.
  destruct tok; reflexivity.
Qed.

Lemma uint_token_spec (s : string) : FindString uint_token s = first_uint s.
Proof. apply FindString_found, uint_token_find. Qed.

Lemma int_here (i : nat) (c : ascii) (s : string) :
  match_here int_token i (String c s) =
  if perl_digit c then Some [take_while perl_digit (String c s)]
  else if lit "-" c && (match s with String d _ => perl_digit d | _ => false end)
       then Some [String c (take_while perl_digit s)]
       else None.
Proof.
  unfold match_here, int_token. cbn [backtrack].
  destruct (perl_digit c) eqn:Hd.
  - assert (Hm : lit "-" c = false).
    { destruct (lit "-" c) eqn:E; [|reflexivity].
      unfold lit in E. apply Ascii.eqb_eq in E. subst c. discriminate Hd. }
    rewrite Hm. cbn [take_while]. rewrite Hd.
    apply star_longest.
    replace (S i + String.length (take_while perl_digit s) - i)%nat
      with (S (String.length (take_while perl_digit s))) by lia.
    cbn [substring]. rewrite substring_take_while. reflexivity.
  - destruct (lit "-" c) eqn:Hm; cbn [andb]; [|reflexivity].
    destruct s as [|d s']; [reflexivity|].
    destruct (perl_digit d) eqn:Hd'; [|reflexivity].
    replace (star perl_digit (S (S i)) s' _) with
      (Some [String c (take_while perl_digit (String d s'))]); [reflexivity|].
    symmetry. apply star_longest.
    replace (S (S i) + String.length (take_while perl_digit s') - i)%nat
      with (S (S (String.length (take_while perl_digit s')))) by lia.
    cbn [substring take_while]. rewrite Hd', substring_take_while. reflexivity.
Qed.

Lemma int_token_find (s : string) :
  forall i, find_from int_token i s = found (first_int s).
Proof.
  induction s as [|c s IH]; intros i; [reflexivity|].
  cbn [find_from first_int]. rewrite int_here.
  destruct (perl_digit c) eqn:Hd.
  - cbn [take_while]. rewrite Hd. reflexivity.
  - destruct (lit "-" c && _); [reflexivity|]. apply IH.
Qed.

Lemma int_token_spec (s : string) : FindString int_token s = first_int s.
Proof. apply FindString_found, int_token_find. Qed.

(** The tokens are the leftmost matches. *)

Lemma take_while_all (p : cclass) (s : string) :
  all_chars p (take_while p s) = true.
Proof.
  induction s as [|c s IH]; cbn; [reflexivity|].
  destruct (p c) eqn:E; cbn; [rewrite E; exact IH|reflexivity].
Qed.

Lemma prefix_all_le (p : cclass) (t : string) :
  forall s post, s = t +:+ post -> all_chars p t = true ->
                 (String.length t <= String.length (take_while p s))%nat.
Proof.
  induction t as [|c t IH]; intros s post Hs Ht; cbn; [lia|].
  rewrite append_cons in Hs. subst s. cbn in Ht.
  apply andb_true_iff in Ht as [Hc Ht]. cbn [take_while]. rewrite Hc.
  cbn [String.length]. specialize (IH _ post eq_refl Ht). lia.
Qed.

Lemma uint_shape_cons (c : ascii) (t : string) :
  uint_shape (String c t) = true -> perl_digit c = true /\ all_chars perl_digit t = true.
Proof. cbn. intros H. apply andb_true_iff in H. exact H. Qed.

Lemma digit_not_minus (c : ascii) : perl_digit c = true -> lit "-" c = false.
Proof.
  intros H. destruct (lit "-" c) eqn:E; [|reflexivity].
  unfold lit in E. apply Ascii.eqb_eq in E. subst c. discriminate H.
Qed.

(** A match that starts at the first character. *)
Lemma int_shape_here (c : ascii) (s t post : string) :
  String c s = t +:+ post -> int_shape t = true ->
  (perl_digit c = true /\
   (String.length t <= String.length (take_while perl_digit (String c s)))%nat) \/
  (perl_digit c = false /\ lit "-" c = true /\
   (exists d s', s = String d s' /\ perl_digit d = true) /\
   (String.length t <= S (String.length (take_while perl_digit s)))%nat).
Proof.
  intros Hs Ht. destruct t as [|a t]; [discriminate Ht|].
  rewrite append_cons in Hs. injection Hs as <- Hs. cbn [int_shape] in Ht.
  destruct (lit "-" c) eqn:Hm.
  - right. assert (Hd : perl_digit c = false).
    { unfold lit in Hm. apply Ascii.eqb_eq in Hm. subst c. reflexivity. }
    split; [exact Hd|]. split; [reflexivity|].
    destruct t as [|d t]; [discriminate Ht|].
    apply uint_shape_cons in Ht as [Hd' Ht]. rewrite append_cons in Hs.
    split; [eauto|].
    pose proof (prefix_all_le perl_digit (String d t) s post Hs) as Hle.
    cbn [all_chars] in Hle. rewrite Hd', Ht in Hle. specialize (Hle eq_refl).
    cbn [String.length] in *. lia.
  - left. apply uint_shape_cons in Ht as [Hd Ht]. split; [exact Hd|].
    subst s. apply (prefix_all_le perl_digit (String c t) _ post);
      [reflexivity|]. cbn [all_chars]. rewrite Hd, Ht. reflexivity.
Qed.

Lemma uint_shape_here (c : ascii) (s t post : string) :
  String c s = t +:+ post -> uint_shape t = true ->
  perl_digit c = true /\
  (String.length t <= String.length (take_while perl_digit (String c s)))%nat.
Proof.
  intros Hs Ht. destruct t as [|a t]; [discriminate Ht|].
  rewrite append_cons in Hs. injection Hs as <- Hs.
  apply uint_shape_cons in Ht as [Hd Ht]. split; [exact Hd|].
  subst s. apply (prefix_all_le perl_digit (String c t) _ post);
    [reflexivity|]. cbn [all_chars]. rewrite Hd, Ht. reflexivity.
Qed.

(** The search moves on when no match starts at the first character. *)
Lemma first_match_skip (shape : string -> bool) (c : ascii) (s tok : string) :
  shape EmptyString = false ->
  (forall t post, String c s = t +:+ post -> shape t = false) ->
  first_match shape s tok -> first_match shape (String c s) tok.
Proof.
  intros Hempty Hhere H. destruct tok as [|a tok]; cbn [first_match] in *.
  - intros pre t post Hs. destruct pre as [|c' pre].
    + rewrite append_nil in Hs. eapply Hhere, Hs.
    + rewrite append_cons in Hs. injection Hs as _ Hs. eapply H, Hs.
  - destruct H as (pre & post & Hs & Hshape & Hmin).
    exists (String c pre), post. split; [rewrite append_cons, Hs; reflexivity|].
    split; [exact Hshape|].
    intros pre' t' post' Hs' Ht'. destruct pre' as [|c' pre'].
    + rewrite append_nil in Hs'. rewrite (Hhere _ _ Hs') in Ht'. discriminate Ht'.
    + rewrite append_cons in Hs'. injection Hs' as _ Hs'.
      destruct (Hmin pre' t' post' Hs' Ht') as [Hlt|[Heq Hle]];
        cbn [String.length] in *; [left; lia|right; lia].
Qed.

(** The match at the first character, when it is the longest there. *)
Lemma first_match_here (shape : string -> bool) (s tok : string) :
  tok <> EmptyString -> shape tok = true ->
  (exists post, s = tok +:+ post) ->
  (forall t post, s = t +:+ post -> shape t = true ->
                  (String.length t <= String.length tok)%nat) ->
  first_match shape s tok.
Proof.
  intros Hne Hshape [post Hs] Hmax.
  destruct tok as [|a tok]; [contradiction|]. cbn [first_match].
  exists EmptyString, post. split; [rewrite append_nil; exact Hs|].
  split; [exact Hshape|].
  intros pre' t' post' Hs' Ht'. destruct pre' as [|c' pre'].
  - right. split; [reflexivity|]. rewrite append_nil in Hs'. eapply Hmax; eauto.
  - left. cbn. lia.
Qed.

Lemma first_uint_leftmost (s : string) :
  first_match uint_shape s (first_uint s).
Proof.
  induction s as [|c s IH].
  - cbn. intros pre t post Hs.
    destruct pre; [|discriminate Hs]. rewrite append_nil in Hs.
    destruct t; [reflexivity|discriminate Hs].
  - cbn [first_uint]. fold first_uint. destruct (perl_digit c) eqn:Hc.
    + apply first_match_here.
      * cbn [take_while]. rewrite Hc. discriminate.
      * cbn [take_while]. rewrite Hc. cbn [uint_shape all_chars].
        rewrite Hc, take_while_all. reflexivity.
      * exists (drop_while perl_digit (String c s)).
        symmetry. apply take_drop_while.
      * intros t post Hs Ht. eapply uint_shape_here; eauto.
    + apply first_match_skip; [reflexivity| |exact IH].
      intros t post Hs. destruct (uint_shape t) eqn:Ht; [|reflexivity].
      destruct (uint_shape_here _ _ _ _ Hs Ht) as [Hd _]. congruence.
Qed.

Lemma first_int_leftmost (s : string) :
  first_match int_shape s (first_int s).
Proof.
  induction s as [|c s IH].
  - cbn. intros pre t post Hs.
    destruct pre; [|discriminate Hs]. rewrite append_nil in Hs.
    destruct t; [reflexivity|discriminate Hs].
  - cbn [first_int]. destruct (perl_digit c) eqn:Hc.
    + apply first_match_here.
      * cbn [take_while]. rewrite Hc. discriminate.
      * cbn [take_while]. rewrite Hc. cbn [int_shape].
        rewrite (digit_not_minus c Hc). cbn [uint_shape all_chars].
        rewrite Hc, take_while_all. reflexivity.
      * exists (drop_while perl_digit (String c s)).
        symmetry. apply take_drop_while.
      * intros t post Hs Ht.
        destruct (int_shape_here _ _ _ _ Hs Ht) as [[_ Hle]|[Hd _]];
          [exact Hle|congruence].
    + destruct (lit "-" c) eqn:Hm; cbn [andb].
      * destruct s as [|d s'].
        { apply first_match_skip; [reflexivity| |exact IH].
          intros t post Hs. destruct (int_shape t) eqn:Ht; [|reflexivity].
          destruct (int_shape_here _ _ _ _ Hs Ht)
            as [[Hd _]|(_ & _ & (d & s' & E & _) & _)];
            [congruence|discriminate E]. }
        destruct (perl_digit d) eqn:Hd.
        { apply first_match_here.
          - discriminate.
          - cbn [int_shape]. rewrite Hm. cbn [take_while]. rewrite Hd.
            cbn [uint_shape all_chars]. rewrite Hd, take_while_all. reflexivity.
          - exists (drop_while perl_digit (String d s')).
            rewrite append_cons, take_drop_while. reflexivity.
          - intros t post Hs Ht.
            destruct (int_shape_here _ _ _ _ Hs Ht)
              as [[Hd' _]|(_ & _ & _ & Hle)]; [congruence|exact Hle]. }
        apply first_match_skip; [reflexivity| |exact IH].
        intros t post Hs. destruct (int_shape t) eqn:Ht; [|reflexivity].
        destruct (int_shape_here _ _ _ _ Hs Ht)
          as [[Hd' _]|(_ & _ & (d' & s'' & E & Hd') & _)]; [congruence|].
        injection E as -> ->. congruence.
      * apply first_match_skip; [reflexivity| |exact IH].
        intros t post Hs. destruct (int_shape t) eqn:Ht; [|reflexivity].
        destruct (int_shape_here _ _ _ _ Hs Ht)
          as [[Hd' _]|(_ & Hm' & _)]; congruence.
Qed.

(** ** The registry *)

Lemma optionExists_declarations r name :
  optionExists r name = negb (Nat.eqb (declarations r (ToUpper name)) 0).
Proof.
  unfold optionExists, OptionType, declarations.
  repeat case_bool_decide; reflexivity.
Qed.

Lemma optionExists_upper r name :
  optionExists r (ToUpper name) = optionExists r name.
Proof. unfold optionExists, OptionType. rewrite ToUpper_idem. reflexivity. Qed.


(** An option is added only under a name that no type map holds. *)
Lemma declarations_insert (r : registry) (name u : string) :
  optionExists r (ToUpper name) = false ->
  declarations r (ToUpper name) = 0%nat.
Proof.
  rewrite optionExists_upper, optionExists_declarations.
  destruct (declarations r (ToUpper name)); [reflexivity|discriminate].
Qed.

Lemma is_Some_insert_count (m : gmap string loc) (k u : string) (t : loc) :
  (if bool_decide (is_Some (<[k := t]> m !! u)) then 1 else 0)%nat =
  if bool_decide (k = u) then 1%nat
  else (if bool_decide (is_Some (m !! u)) then 1 else 0)%nat.
Proof.
  destruct (decide (k = u)) as [->|Hne].
  - rewrite lookup_insert_eq. rewrite !bool_decide_eq_true_2; eauto.
  - rewrite lookup_insert_ne by exact Hne.
    rewrite (bool_decide_eq_false_2 (k = u)) by exact Hne. reflexivity.
Qed.

(** What a call does to the registry: nothing, a reset, or one new
    declaration under a name that no type map holds. *)
Lemma do_call_cases (r : registry) (c : call) :
  (do_call r c).2 = r \/ (do_call r c).2 = Reset \/
  exists ty t n,
    optionExists r (ToUpper n) = false /\
    (do_call r c).1 = None /\
    option_flags (do_call r c).2 =
      <[ToUpper n := Z.lor (call_flags c) (type_bit ty)]> (option_flags r) /\
    target_map ty (do_call r c).2 = <[ToUpper n := t]> (target_map ty r) /\
    forall ty', ty' <> ty -> target_map ty' (do_call r c).2 = target_map ty' r.
Proof.
  destruct c as [|t n f|t n f|t n f|t n]; cbn [do_call call_flags];
    [right; left; reflexivity| | | |];
    unfold AddString, AddInt, AddFloat, AddBool;
    try (destruct (negb _); [left; reflexivity|]);
    (destruct (optionExists r (ToUpper n)) eqn:E; [left; reflexivity|]);
    right; right;
    [exists TString, t, n|exists TInt, t, n|exists TFloat, t, n|exists TBool, t, n];
    (split; [exact E|]); repeat split;
    intros [] Hne; try reflexivity; congruence.
Qed.



Lemma run_snoc (cs : list call) (c : call) :
  run (cs ++ [c]) = (do_call (run cs) c).2.
Proof. unfold run. rewrite fold_left_app. reflexivity. Qed.


(** Registries built without type bits in the flags arguments. *)

Lemma same_at_status r r' u :
  same_at r r' u ->
  (undeclared r u \/ exists ty fl l, declared r u ty fl l) ->
  (undeclared r' u \/ exists ty fl l, declared r' u ty fl l).
Proof.
  intros [Hf Hm] [[H1 H2]|(ty & fl & l & H1 & H2 & H3 & H4)].
  - left. split; [congruence|]. intros ty. rewrite Hm. apply H2.
  - right. exists ty, fl, l. repeat split.
    + congruence.
    + exact H2.
    + rewrite Hm. exact H3.
    + intros ty' Hne. rewrite Hm. apply H4, Hne.
Qed.

Lemma declarations_0_maps r u :
  declarations r u = 0%nat -> forall ty, target_map ty r !! u = None.
Proof.
  unfold declarations. intros H ty.
  repeat case_bool_decide; try (exfalso; lia).
  destruct ty; cbn [target_map]; apply eq_None_not_Some; assumption.
Qed.

Lemma well_formed_Reset : well_formed Reset.
Proof. intros u. left. split; [reflexivity|]. intros []; reflexivity. Qed.

(** Adding one declaration under a name that no type map holds. *)
Lemma well_formed_add (r r' : registry) (U : string) (ty : otype) (fl : Z)
    (t : loc) :
  well_formed r ->
  optionExists r (ToUpper U) = false ->
  Z.land fl all_types = 0 ->
  option_flags r' = <[ToUpper U := Z.lor fl (type_bit ty)]> (option_flags r) ->
  target_map ty r' = <[ToUpper U := t]> (target_map ty r) ->
  (forall ty', ty' <> ty -> target_map ty' r' = target_map ty' r) ->
  well_formed r'.
Proof.
  intros Hwf E Hfl Hflags Hmap Hother u.
  apply (declarations_insert r U u) in E.
  pose proof (declarations_0_maps _ _ E) as Hnone.
  destruct (decide (ToUpper U = u)) as [<-|Hu].
  - right. exists ty, fl, t. repeat split.
    + rewrite Hflags. apply lookup_insert_eq.
    + exact Hfl.
    + rewrite Hmap. apply lookup_insert_eq.
    + intros ty' Hne. rewrite (Hother ty' Hne). apply Hnone.
  - apply (same_at_status r r' u); [|apply Hwf]. split.
    + rewrite Hflags. apply lookup_insert_ne, Hu.
    + intros ty'. destruct (decide (ty' = ty)) as [->|Hne].
      * rewrite Hmap. apply lookup_insert_ne, Hu.
      * rewrite (Hother ty' Hne). reflexivity.
Qed.

Lemma well_formed_step (r : registry) (c : call) :
  well_formed r -> modifiers_only c -> well_formed (do_call r c).2.
Proof.
  intros Hwf Hc.
  destruct (do_call_cases r c)
    as [->|[->|(ty & t & n & E & _ & Hflags & Hmap & Hother)]];
    [exact Hwf|apply well_formed_Reset|].
  exact (well_formed_add r _ n ty (call_flags c) t Hwf E Hc Hflags Hmap Hother).
Qed.

Lemma well_formed_run (cs : list call) :
  Forall modifiers_only cs -> well_formed (run cs).
Proof.
  induction cs as [|c cs IH] using rev_ind; intros H.
  - apply well_formed_Reset.
  - rewrite run_snoc. apply Forall_app in H as [H1 H2].
    apply well_formed_step; [apply IH, H1|].
    inversion H2; assumption.
Qed.

(** ** Flag words *)

Lemma land_sub (fl m b : Z) :
  Z.land fl m = 0 -> Z.land m b = b -> Z.land fl b = 0.
Proof.
  intros H1 H2. rewrite <- H2, Z.land_assoc, H1. apply Z.land_0_l.
Qed.

Lemma hasAttr_lor (fl ty a : Z) :
  Z.land fl a = 0 -> hasAttr (Z.lor fl ty) a = hasAttr ty a.
Proof.
  intros H. unfold hasAttr. rewrite Z.land_lor_distr_l, H, Z.lor_0_l.
  reflexivity.
Qed.

Lemma hasAttr_lor_modifier (fl ty a : Z) :
  Z.land ty a = 0 -> hasAttr (Z.lor fl ty) a = hasAttr fl a.
Proof.
  intros H. unfold hasAttr. rewrite Z.land_lor_distr_l, H, Z.lor_0_r.
  reflexivity.
Qed.

Lemma hasAttr_lor_same (fl a : Z) :
  a <> 0 -> hasAttr (Z.lor fl a) a = true.
Proof.
  intros H. unfold hasAttr.
  rewrite Z.land_lor_distr_l, Z.land_diag.
  destruct (Z.eqb_spec (Z.lor (Z.land fl a) a) 0) as [E|E]; [|reflexivity].
  apply Z.lor_eq_0_iff in E. tauto.
Qed.

Lemma hasAttr_type (fl : Z) (ty ty' : otype) :
  Z.land fl all_types = 0 ->
  hasAttr (Z.lor fl (type_bit ty)) (type_bit ty') = bool_decide (ty = ty').
Proof.
  intros H. rewrite hasAttr_lor.
  - destruct ty, ty'; reflexivity.
  - apply (land_sub fl all_types); [exact H|]. destruct ty'; reflexivity.
Qed.

(** ** The dispatch of [setOption] *)

Section Dispatch.

Context {float64 : Type} (ParseFloat : string -> option float64).

Lemma setOption_declared r name value verbose w ty fl l :
  declared r (ToUpper name) ty fl l ->
  setOption ParseFloat r name value verbose w =
  branch ParseFloat ty r (ToUpper name) (Z.lor fl (type_bit ty)) value verbose w.
Proof.
  intros (Hf & Hfl & _). unfold setOption. rewrite Hf.
  change STRING with (type_bit TString). change INT with (type_bit TInt).
  change FLOAT with (type_bit TFloat). change BOOL with (type_bit TBool).
  rewrite !hasAttr_type by exact Hfl.
  destruct ty; reflexivity.
Qed.

Lemma setOption_undeclared r name value verbose w :
  option_flags r !! ToUpper name = None ->
  setOption ParseFloat r name value verbose w =
  fail verbose (UnrecognizedOption (ToUpper name)) w.
Proof. intros H. unfold setOption. rewrite H. reflexivity. Qed.

Lemma OptionType_declared r name ty fl l :
  declared r (ToUpper name) ty fl l -> OptionType r name = type_bit ty.
Proof.
  intros (_ & _ & Hm & Hother). unfold OptionType.
  destruct ty; cbn [target_map] in Hm;
    pose proof (Hother TString) as H1; pose proof (Hother TInt) as H2;
    pose proof (Hother TFloat) as H3; pose proof (Hother TBool) as H4;
    cbn [target_map] in *;
    repeat (first [rewrite Hm | rewrite H1 by congruence
                  | rewrite H2 by congruence | rewrite H3 by congruence
                  | rewrite H4 by congruence]);
    repeat case_bool_decide; try reflexivity;
    repeat match goal with
           | H : is_Some None |- _ => destruct H; discriminate
           | H : ¬ is_Some (Some _) |- _ => exfalso; apply H; eauto
           end.
Qed.

Lemma OptionType_undeclared r name :
  undeclared r (ToUpper name) -> OptionType r name = NONE.
Proof.
  intros [_ H]. unfold OptionType.
  rewrite (H TString : str_map r !! _ = None), (H TInt : int_map r !! _ = None),
    (H TFloat : float_map r !! _ = None), (H TBool : bool_map r !! _ = None).
  reflexivity.
Qed.

(** No branch panics on a declared option, and none reports the
    logical error. *)
Lemma branch_returns ty r uname fl l value verbose w :
  target_map ty r !! uname = Some l ->
  exists e w',
    branch ParseFloat ty r uname fl value verbose w = Returns (e, w') /\
    forall u v, e <> Some (LogicalError u v).
Proof.
  intros Hm. destruct ty; cbn [branch target_map] in *.
  - unfold setString, assign. rewrite Hm. eexists _, _. split; [reflexivity|discriminate].
  - unfold setInt, assign, fail. rewrite Hm.
    destruct (Atoi _); eexists _, _; (split; [reflexivity|discriminate]).
  - unfold setFloat, assign, fail. rewrite Hm.
    destruct (ParseFloat _); eexists _, _; (split; [reflexivity|discriminate]).
  - unfold setBool, assign, fail. rewrite Hm.
    destruct (existsb _ boolean_trues); [|destruct (existsb _ boolean_falses)];
      eexists _, _; (split; [reflexivity|discriminate]).
Qed.

End Dispatch.

(** ** Writes to the caller's variables *)

Section Writes.

Context {float64 : Type}.

Lemma after_nil (w : world float64) : after [] [] w = w.
Proof. destruct w as [m e]. unfold after. cbn. rewrite app_nil_r. reflexivity. Qed.

Lemma after_after ws1 msgs1 ws2 msgs2 (w : world float64) :
  after ws2 msgs2 (after ws1 msgs1 w) = after (ws1 ++ ws2) (msgs1 ++ msgs2) w.
Proof.
  unfold after, apply_writes. cbn. rewrite fold_left_app, app_assoc. reflexivity.
Qed.

Lemma report_after verbose msg (w : world float64) :
  report verbose msg w = after [] (if verbose then [msg] else []) w.
Proof.
  unfold report. destruct verbose; [reflexivity|]. symmetry. apply after_nil.
Qed.

Lemma write_absorb_or_commute (m : store float64) (x y : write) :
  apply_write (apply_write m x) y = apply_write m y \/
  apply_write (apply_write m x) y = apply_write (apply_write m y) x.
Proof.
  destruct x as [l v|l v|l v|l v], y as [l' v'|l' v'|l' v'|l' v'];
    try (right; reflexivity);
    (destruct (decide (l = l')) as [->|Hne];
     [ left; cbn; rewrite insert_insert_eq; reflexivity
     | right; cbn; rewrite (insert_insert_ne _ l l') by exact Hne; reflexivity ]).
Qed.

Lemma write_twice (m : store float64) (x : write) :
  apply_write (apply_write m x) x = apply_write m x.
Proof. destruct x; cbn; rewrite insert_insert_eq; reflexivity. Qed.

Lemma write_absorbs (ws : list write) (x : write) :
  forall m : store float64,
    apply_write (apply_writes ws (apply_write m x)) x =
    apply_write (apply_writes ws m) x.
Proof.
  induction ws as [|y ws IH]; intros m; cbn.
  - apply write_twice.
  - destruct (write_absorb_or_commute m x y) as [H|H]; rewrite H.
    + reflexivity.
    + apply IH.
Qed.

(** Overwriting cells with fixed values a second time changes nothing. *)
Lemma apply_writes_idem (ws : list write) (m : store float64) :
  apply_writes ws (apply_writes ws m) = apply_writes ws m.
Proof.
  revert m. induction ws as [|x ws IH] using rev_ind; intros m; [reflexivity|].
  assert (E : forall m', apply_writes (ws ++ [x]) m' =
                        apply_write (apply_writes ws m') x).
  { intros m'. unfold apply_writes. rewrite fold_left_app. reflexivity. }
  rewrite !E, write_absorbs, IH. reflexivity.
Qed.

End Writes.

(** ** The scan as a sequence of writes *)

Section Effects.

Context {float64 : Type} (ParseFloat : string -> option float64).

Lemma fail_blind verbose e : blind_err (fail (float64 := float64) verbose e).
Proof.
  right. exists (Some e), [], (if verbose then [Error e +:+ newline] else []).
  split; [right; reflexivity|]. intros w. unfold fail.
  rewrite report_after. reflexivity.
Qed.

Lemma assign_blind (m : gmap string loc) (uname : string)
    (wr : loc -> world float64 -> world float64) (x : loc -> write) :
  (forall l w, wr l w = after [x l] [] w) ->
  blind_err (assign m uname wr).
Proof.
  intros H. unfold assign. destruct (m !! uname) as [l|].
  - right. exists None, [x l], []. split; [left; reflexivity|].
    intros w. rewrite H. reflexivity.
  - left. reflexivity.
Qed.

Lemma write_str_after l v (w : world float64) : write_str l v w = after [WStr l v] [] w.
Proof. unfold write_str, after. cbn. rewrite app_nil_r. reflexivity. Qed.

Lemma write_int_after l v (w : world float64) : write_int l v w = after [WInt l v] [] w.
Proof. unfold write_int, after. cbn. rewrite app_nil_r. reflexivity. Qed.

Lemma write_float_after l v (w : world float64) :
  write_float l v w = after [WFloat l v] [] w.
Proof. unfold write_float, after. cbn. rewrite app_nil_r. reflexivity. Qed.

Lemma write_bool_after l v (w : world float64) : write_bool l v w = after [WBool l v] [] w.
Proof. unfold write_bool, after. cbn. rewrite app_nil_r. reflexivity. Qed.

Lemma setOption_blind r name value verbose :
  blind_err (setOption ParseFloat r name value verbose).
Proof.
  unfold setOption. destruct (option_flags r !! ToUpper name) as [flags|].
  2:{ apply fail_blind. }
  destruct (hasAttr flags STRING).
  { unfold setString. eapply assign_blind. intros. apply write_str_after. }
  destruct (hasAttr flags INT).
  { unfold setInt. destruct (Atoi _) as [iv|].
    - eapply assign_blind. intros. apply write_int_after.
    - apply fail_blind. }
  destruct (hasAttr flags FLOAT).
  { unfold setFloat. destruct (ParseFloat _) as [fv|].
    - eapply assign_blind. intros. apply write_float_after.
    - apply fail_blind. }
  destruct (hasAttr flags BOOL).
  { unfold setBool. destruct (existsb _ boolean_trues).
    - eapply assign_blind. intros. apply write_bool_after.
    - destruct (existsb _ boolean_falses).
      + eapply assign_blind. intros. apply write_bool_after.
      + apply fail_blind. }
  apply fail_blind.
Qed.

(** A call of [setOption] that returns an error has written nothing. *)
Lemma setOption_error_mem r name value verbose (w w' : world float64) e :
  setOption ParseFloat r name value verbose w = Returns (Some e, w') ->
  mem w' = mem w.
Proof.
  destruct (setOption_blind r name value verbose)
    as [Hp|(e0 & ws & msgs & Hor & H)]; intros E.
  - rewrite Hp in E. discriminate.
  - rewrite H in E. injection E as E1 E2. subst e0 w'.
    destruct Hor as [Hn| ->]; [discriminate|reflexivity].
Qed.

Lemma scan_line_blind r verbose line :
  blind (scan_line ParseFloat r verbose line).
Proof.
  unfold scan_line. destruct (classify line) as [| |key value|].
  - right. exists [], []. intros w. rewrite after_nil. reflexivity.
  - right. exists [], []. intros w. rewrite after_nil. reflexivity.
  - destruct (setOption_blind r key value verbose)
      as [Hp|(e0 & ws & msgs & _ & H)].
    + left. intros w. rewrite Hp. reflexivity.
    + right. exists ws, msgs. intros w. rewrite H. reflexivity.
  - right. eexists [], _. intros w. rewrite report_after. reflexivity.
Qed.

Lemma scan_blind r verbose lines :
  blind (scan ParseFloat r verbose lines).
Proof.
  induction lines as [|line rest IH].
  - right. exists [], []. intros w. cbn. rewrite after_nil. reflexivity.
  - destruct (scan_line_blind r verbose line) as [Hp|(ws & msgs & H)].
    + left. intros w. cbn. rewrite Hp. reflexivity.
    + destruct IH as [Hp'|(ws' & msgs' & H')].
      * left. intros w. cbn. rewrite H. apply Hp'.
      * right. exists (ws ++ ws')%list, (msgs ++ msgs')%list. intros w. cbn.
        rewrite H, H', after_after. reflexivity.
Qed.

(** On a well-formed registry no line makes the scan panic. *)
Lemma setOption_returns r name value verbose (w : world float64) :
  well_formed r ->
  exists e w', setOption ParseFloat r name value verbose w = Returns (e, w').
Proof.
  intros Hwf. destruct (Hwf (ToUpper name)) as [[Hu _]|(ty & fl & l & Hd)].
  - rewrite setOption_undeclared by exact Hu. unfold fail. eauto.
  - rewrite (setOption_declared ParseFloat _ _ _ _ _ _ _ _ Hd).
    destruct Hd as (_ & _ & Hm & _).
    destruct (branch_returns ParseFloat ty r (ToUpper name)
                (Z.lor fl (type_bit ty)) l value verbose w Hm)
      as (e & w' & H & _).
    eauto.
Qed.

Lemma scan_line_returns r verbose line (w : world float64) :
  well_formed r -> exists w', scan_line ParseFloat r verbose line w = Returns w'.
Proof.
  intros Hwf. unfold scan_line. destruct (classify line) as [| |key value|]; eauto.
  destruct (setOption_returns r key value verbose w Hwf) as (e & w' & ->). eauto.
Qed.

Lemma scan_returns r verbose lines :
  well_formed r ->
  forall w : world float64, exists w', scan ParseFloat r verbose lines w = Returns w'.
Proof.
  intros Hwf. induction lines as [|line rest IH]; intros w; cbn; [eauto|].
  destruct (scan_line_returns r verbose line w Hwf) as (w' & ->). apply IH.
Qed.

End Effects.

(** ** The coercions *)


Lemma report_mem {float64} verbose msg (w : world float64) :
  mem (report verbose msg w) = mem w.
Proof. unfold report. destruct verbose; reflexivity. Qed.

Section Coercions.

Context {float64 : Type} (ParseFloat : string -> option float64).


Lemma setOption_int r name value verbose (w : world float64) fl l :
  int_map r !! ToUpper name = Some l ->
  option_flags r !! ToUpper name = Some (Z.lor fl INT) ->
  Z.land fl STRING = 0 ->
  setOption ParseFloat r name value verbose w =
  match Atoi (int_token_of fl value) with
  | Some iv => Returns (None, write_int l iv w)
  | None => fail verbose (CoercionFailure (int_token_of fl value) "integer") w
  end.
Proof.
  intros Hm Hf Hfl. unfold setOption. rewrite Hf.
  rewrite (hasAttr_lor fl INT STRING Hfl), hasAttr_lor_same by discriminate.
  change (hasAttr INT STRING) with false. cbv iota.
  unfold setInt, assign, int_token_of.
  rewrite hasAttr_lor_modifier by reflexivity.
  rewrite uint_token_spec, int_token_spec, Hm.
  destruct (hasAttr fl UNSIGNED); reflexivity.
Qed.

Lemma setOption_bool r name value verbose (w : world float64) l :
  bool_map r !! ToUpper name = Some l ->
  option_flags r !! ToUpper name = Some BOOL ->
  setOption ParseFloat r name value verbose w =
  let v := ToLower (TrimSpace value) in
  if existsb (String.eqb v) boolean_trues then
    Returns (None, write_bool l true w)
  else if existsb (String.eqb v) boolean_falses then
    Returns (None, write_bool l false w)
  else fail verbose (CoercionFailure v "boolean") w.
Proof.
  intros Hm Hf. unfold setOption. rewrite Hf.
  change (hasAttr BOOL STRING) with false. change (hasAttr BOOL INT) with false.
  change (hasAttr BOOL FLOAT) with false. change (hasAttr BOOL BOOL) with true.
  cbv iota. unfold setBool, assign. rewrite Hm. reflexivity.
Qed.

End Coercions.

(** ** Line classification *)

Lemma classify_groups (line : string) :
  classify line =
  if MatchString comment_re line then Comment
  else if negb (MatchString nonblank_re line) then Blank
  else
    match groups12 (FindStringSubmatch option_re line) with
    | Some (key, value) => Entry key value
    | None => Malformed
    end.
Proof.
  unfold classify.
  destruct (FindStringSubmatch option_re line); reflexivity.
Qed.

(** C3 (as amended).  For every physical line (a text without line
    feed) the scanning loop classifies in this order: white space then
    [#] is a comment, even when the line has the key=value shape; a line
    of white space only is blank; otherwise the line is an entry exactly
    when its longest prefix without [:] and [=] is not empty and is
    followed by [=]; the value is all that follows this [=], and the key
    is that prefix without its leading white space (the last character
    of a prefix of white space only); any other line is malformed. *)
Theorem classify_correct (line : string) :
  all_chars any_char line = true ->
  classify line = classify_spec line.
Proof.
  intros H. rewrite classify_groups, comment_re_spec, nonblank_re_spec.
  rewrite negb_involutive, option_re_spec by exact H. reflexivity.
Qed.

Lemma classify_correct_witness :
  all_chars any_char "  key = a=b" = true /\
  classify "  key = a=b" = classify_spec "  key = a=b".
Proof. split; [reflexivity|apply classify_correct; reflexivity]. Defined.

(** The key of an indented entry is not the longest prefix of the line
    without [:] and [=]. *)
Lemma classify_indented_key :
  classify "  x=7" = Entry "x" "7" /\
  classify_as_stated "  x=7" = Entry "  x" "7" /\
  classify "  x=7" <> classify_as_stated "  x=7".
Proof. split; [reflexivity|split; [reflexivity|discriminate]]. Qed.

(** ** Coercion of the values *)






(** An Integer option registered by [AddInt] without the STRING type
    bit among its flags: the coercion takes the leftmost
    match of the token pattern in the value (the longest one that starts
    there): one or more digits when Unsigned is set, without looking at
    any sign, and otherwise an optional minus sign and one or more
    digits; the integer that the token denotes is written to the target,
    and the target keeps its value when there is no token or when the
    token does not fit an [int].  An Unsigned option given -42 stores
    42. *)
Theorem int_coercion {float64 : Type} (ParseFloat : string -> option float64)
    (r : registry) (name value : string) (verbose : bool)
    (w : world float64) (fl : Z) (l : loc) :
  int_map r !! ToUpper name = Some l ->
  option_flags r !! ToUpper name = Some (Z.lor fl INT) ->
  Z.land fl STRING = 0 ->
  let token := if hasAttr fl UNSIGNED then first_uint value
               else first_int value in
  FindString (if hasAttr fl UNSIGNED then uint_token else int_token) value
    = token /\
  first_match (if hasAttr fl UNSIGNED then uint_shape else int_shape)
    value token /\
  (forall iv, Atoi token = Some iv ->
     setOption ParseFloat r name value verbose w =
       Returns (None, write_int l iv w)) /\
  (Atoi token = None ->
     exists w', setOption ParseFloat r name value verbose w =
                  Returns (Some (CoercionFailure token "integer"), w') /\
                mem w' = mem w) /\
  (hasAttr fl UNSIGNED = true ->
   setOption ParseFloat r name "-42" verbose w =
     Returns (None, write_int l 42 w)).
Proof.
  intros Hm Hf Hfl token.
  pose proof (setOption_int ParseFloat r name value verbose w fl l Hm Hf Hfl)
    as E. unfold int_token_of in E. fold token in E.
  split; [|split; [|split; [|split]]].
  - unfold token. destruct (hasAttr fl UNSIGNED);
      [apply uint_token_spec|apply int_token_spec].
  - unfold token. destruct (hasAttr fl UNSIGNED);
      [apply first_uint_leftmost|apply first_int_leftmost].
  - intros iv Hiv. rewrite E, Hiv. reflexivity.
  - intros Hnone. rewrite E, Hnone. eexists. split; [reflexivity|].
    apply report_mem.
  - intros Hu.
    rewrite (setOption_int ParseFloat r name "-42" verbose w fl l Hm Hf Hfl).
    unfold int_token_of. rewrite Hu. reflexivity.
Qed.

Lemma int_coercion_witness :
  int_map (run sample_calls) !! ToUpper "count" = Some 0%nat /\
  option_flags (run sample_calls) !! ToUpper "count" =
    Some (Z.lor UNSIGNED INT) /\
  Z.land UNSIGNED STRING = 0 /\
  setOption sample_floats (run sample_calls) "count" "-42" true sample_world =
  Returns (None, write_int 0%nat 42 sample_world).
Proof.
  assert (H1 : int_map (run sample_calls) !! ToUpper "count" = Some 0%nat)
    by reflexivity.
  assert (H2 : option_flags (run sample_calls) !! ToUpper "count" =
               Some (Z.lor UNSIGNED INT)) by reflexivity.
  assert (H3 : Z.land UNSIGNED STRING = 0) by reflexivity.
  split; [exact H1|]. split; [exact H2|]. split; [exact H3|].
  exact (proj2 (proj2 (proj2 (proj2
           (int_coercion sample_floats (run sample_calls) "count" "-42" true
              sample_world UNSIGNED 0%nat H1 H2 H3)))) eq_refl).
Defined.

(** ** Registration *)

(** What a successful registration stores, under the canonical name. *)
Lemma registration_stored (r r' : registry) (t : loc) (n : string) (fl : Z) :
  (AddString t n fl r = (None, r') ->
   str_map r' !! ToUpper n = Some t /\
   option_flags r' !! ToUpper n = Some (Z.lor fl STRING)) /\
  (AddInt t n fl r = (None, r') ->
   int_map r' !! ToUpper n = Some t /\
   option_flags r' !! ToUpper n = Some (Z.lor fl INT)) /\
  (AddFloat t n fl r = (None, r') ->
   float_map r' !! ToUpper n = Some t /\
   option_flags r' !! ToUpper n = Some (Z.lor fl FLOAT)) /\
  (AddBool t n r = (None, r') ->
   bool_map r' !! ToUpper n = Some t /\
   option_flags r' !! ToUpper n = Some BOOL).
Proof.
  unfold AddString, AddInt, AddFloat, AddBool.
  repeat split;
    repeat match goal with
           | H : context [if ?b then _ else _] |- _ =>
               destruct b; try discriminate H
           end;
    match goal with
    | H : (None, _) = (None, _) |- _ => injection H as <-
    end; cbn; apply lookup_insert_eq.
Qed.

(** A declaration stays as it is until the next [Reset]. *)
Lemma declaration_kept (r : registry) (c : call) (name : string) :
  optionExists r name = true ->
  c <> CallReset ->
  same_at r (do_call r c).2 (ToUpper name).
Proof.
  intros Hex Hc.
  assert (Hsame : same_at r r (ToUpper name)) by (split; reflexivity).
  destruct c as [|t n f|t n f|t n f|t n]; [contradiction| | | |];
    cbn [do_call]; unfold AddString, AddInt, AddFloat, AddBool;
    try (destruct (negb _); [exact Hsame|]);
    (destruct (optionExists r (ToUpper n)) eqn:E; [exact Hsame|]);
    (assert (Hne : ToUpper n <> ToUpper name);
     [ intros Heq; rewrite optionExists_upper in E;
       rewrite optionExists_declarations in E, Hex;
       rewrite Heq in E; congruence
     | split; [cbn; apply lookup_insert_ne, Hne|];
       intros []; cbn; try reflexivity; apply lookup_insert_ne, Hne ]).
Qed.

(** A flags argument with a bit of the mask of the call is refused and
    the registry stays as it was. *)
Lemma unsupported_flag_rejected (r : registry) (t : loc) (n : string) (fl : Z) :
  (Z.land fl disallowed_str_opts <> 0 ->
   AddString t n fl r = (Some (UnsupportedFlag "string"), r)) /\
  (Z.land fl disallowed_int_opts <> 0 ->
   AddInt t n fl r = (Some (UnsupportedFlag "integer"), r)) /\
  (Z.land fl disallowed_float_opts <> 0 ->
   AddFloat t n fl r = (Some (UnsupportedFlag "float"), r)).
Proof.
  unfold AddString, AddInt, AddFloat.
  repeat split; intros H; apply Z.eqb_neq in H; rewrite H; reflexivity.
Qed.

(** The masks hold no type bit: the type bits of a flags argument are
    never looked at. *)
Lemma type_bits_not_checked (fl : Z) :
  Z.land fl (Z.lor (Z.lor (Z.lor STRIP UPPER) LOWER) UNSIGNED) = 0 ->
  Z.land fl disallowed_str_opts = 0 /\
  Z.land fl disallowed_int_opts = 0 /\
  Z.land fl disallowed_float_opts = 0.
Proof.
  intros H. repeat split; apply (land_sub fl _ _ H); reflexivity.
Qed.

(** C1 (the code at the failing input).  [AddInt] called on the empty
    registry with the type bit STRING as its flags argument returns no
    error and registers the option with two type bits; the first entry
    for that option then makes [setOption] write through the nil pointer
    that the lookup in [str_map] gives. *)
Theorem type_bit_flag_accepted :
  AddInt 0%nat "a" STRING Reset = (None, mistyped_registry) /\
  mistyped_registry <> Reset /\
  option_flags mistyped_registry !! "A" = Some (Z.lor STRING INT) /\
  str_map mistyped_registry !! "A" = None /\
  forall (float64 : Type) (ParseFloat : string -> option float64)
         (value : string) (verbose : bool) (w : world float64),
    setOption ParseFloat mistyped_registry "a" value verbose w = Panics.
Proof.
  split; [reflexivity|].
  split; [|split; [reflexivity|split; [reflexivity|]]].
  - intros E. apply (f_equal (fun x => option_flags x !! "A")) in E.
    vm_compute in E. discriminate E.
  - intros float64 ParseFloat value verbose w. reflexivity.
Qed.


(** A successful registration declares the name in every letter case. *)
Lemma declared_after_add (r : registry) (c : call) (n n' : string) :
  (do_call r c).1 = None ->
  match c with
  | CallAddString _ m _ | CallAddInt _ m _ | CallAddFloat _ m _
  | CallAddBool _ m => m = n
  | CallReset => False
  end ->
  ToUpper n' = ToUpper n ->
  optionExists (do_call r c).2 n' = true.
Proof.
  intros Hok Hn Heq. rewrite optionExists_declarations, Heq.
  destruct c as [|t m f|t m f|t m f|t m]; [contradiction| | | |]; subst m;
    cbn [do_call] in *;
    unfold AddString, AddInt, AddFloat, AddBool in *;
    repeat match goal with
           | H : context [if ?b then _ else _] |- _ =>
               destruct b eqn:?; cbn [fst snd] in H; try discriminate H
           end; cbn [snd];
    unfold declarations; cbn [str_map int_map float_map bool_map];
    rewrite is_Some_insert_count, (bool_decide_eq_true_2 _ eq_refl);
    repeat case_bool_decide; reflexivity.
Qed.




(** ** The file scan *)

Section Scan.

Context {float64 : Type} (ParseFloat : string -> option float64).

(** C10.  When no registration call was given a type bit in its flags
    argument, [setOption] on a declared name runs the branch of the type
    under which the name is registered, the map of that type holds the
    name (no write through a nil pointer), and the result is never the
    logical error of the last branch. *)
Theorem setOption_dispatch_safe (cs : list call) (name value : string)
    (verbose : bool) (w : world float64) :
  Forall modifiers_only cs ->
  optionExists (run cs) name = true ->
  exists ty fl l,
    OptionType (run cs) name = type_bit ty /\
    option_flags (run cs) !! ToUpper name = Some (Z.lor fl (type_bit ty)) /\
    target_map ty (run cs) !! ToUpper name = Some l /\
    setOption ParseFloat (run cs) name value verbose w =
      branch ParseFloat ty (run cs) (ToUpper name) (Z.lor fl (type_bit ty))
        value verbose w /\
    exists e w',
      setOption ParseFloat (run cs) name value verbose w = Returns (e, w') /\
      forall u v, e <> Some (LogicalError u v).
Proof.
  intros Hcs Hex. pose proof (well_formed_run cs Hcs) as Hwf.
  destruct (Hwf (ToUpper name)) as [Hu|(ty & fl & l & Hd)].
  - apply OptionType_undeclared in Hu. unfold optionExists in Hex.
    rewrite Hu in Hex. discriminate Hex.
  - exists ty, fl, l.
    pose proof (setOption_declared ParseFloat _ _ value verbose w _ _ _ Hd) as E.
    split; [exact (OptionType_declared _ _ _ _ _ Hd)|].
    destruct Hd as (Hf & _ & Hm & _).
    split; [exact Hf|]. split; [exact Hm|]. split; [exact E|].
    rewrite E. apply (branch_returns ParseFloat ty _ _ _ l). exact Hm.
Qed.

Lemma scan_line_problem r verbose line (w : world float64) :
  line_problem ParseFloat r verbose line w ->
  exists w', scan_line ParseFloat r verbose line w = Returns w' /\
             mem w' = mem w.
Proof.
  intros [Hm|(key & value & e & w' & Hc & Hs)]; unfold scan_line.
  - rewrite Hm. eexists. split; [reflexivity|apply report_mem].
  - rewrite Hc, Hs. exists w'. split; [reflexivity|].
    apply (setOption_error_mem ParseFloat _ _ _ _ _ _ _ Hs).
Qed.

(** The problems that the specification names. *)
Lemma unrecognized_option_problem r verbose line key value (w : world float64) :
  classify line = Entry key value ->
  option_flags r !! ToUpper key = None ->
  line_problem ParseFloat r verbose line w.
Proof.
  intros Hc Hf. right. exists key, value. eexists _, _. split; [exact Hc|].
  rewrite setOption_undeclared by exact Hf. reflexivity.
Qed.

Lemma integer_failure_problem r verbose line key value (w : world float64) fl l :
  classify line = Entry key value ->
  int_map r !! ToUpper key = Some l ->
  option_flags r !! ToUpper key = Some (Z.lor fl INT) ->
  Z.land fl STRING = 0 ->
  Atoi (int_token_of fl value) = None ->
  line_problem ParseFloat r verbose line w.
Proof.
  intros Hc Hm Hf Hfl Ha. right. exists key, value. eexists _, _.
  split; [exact Hc|].
  rewrite (setOption_int ParseFloat r key value verbose w fl l Hm Hf Hfl), Ha.
  reflexivity.
Qed.

Lemma scan_cons r verbose line rest (w w' : world float64) :
  scan_line ParseFloat r verbose line w = Returns w' ->
  scan ParseFloat r verbose (line :: rest) w = scan ParseFloat r verbose rest w'.
Proof. intros H. cbn [scan]. rewrite H. reflexivity. Qed.

Lemma Configure_opened fs r files verbose (w : world float64) lines :
  first_found fs files <> EmptyString ->
  os_Open fs (first_found fs files) = Some lines ->
  Configure ParseFloat fs r files verbose w =
  match scan ParseFloat r verbose lines w with
  | Returns w' => Returns (None, w')
  | Panics => Panics
  end.
Proof.
  intros Hne Ho. unfold Configure.
  destruct (String.eqb_spec (first_found fs files) EmptyString) as [E|_];
    [contradiction|].
  rewrite Ho. reflexivity.
Qed.

(** Registries built by calls without type bits among their flags:
    when the selected file opens, [Configure] returns no error
    whatever the file holds; a line with a problem (malformed,
    unrecognized option, coercion failure) leaves every variable as it
    was and the scan goes on with the next line.  With X declared as an
    Integer, the line x=7 stores 7 and the line x=notanumber leaves the
    value that was there. *)
Theorem Configure_succeeds (cs : list call) (fs : filesystem)
    (files : list string) (verbose : bool) (w : world float64)
    (lines : list string) :
  Forall modifiers_only cs ->
  first_found fs files <> EmptyString ->
  os_Open fs (first_found fs files) = Some lines ->
  (exists w', Configure ParseFloat fs (run cs) files verbose w
              = Returns (None, w') /\
              scan ParseFloat (run cs) verbose lines w = Returns w') /\
  (forall line rest w0,
     line_problem ParseFloat (run cs) verbose line w0 ->
     exists w1,
       scan_line ParseFloat (run cs) verbose line w0 = Returns w1 /\
       mem w1 = mem w0 /\
       scan ParseFloat (run cs) verbose (line :: rest) w0 =
       scan ParseFloat (run cs) verbose rest w1) /\
  (forall l,
     cs = [CallReset; CallAddInt l "X" NONE] ->
     ints (mem w) !! l = Some 4 ->
     (lines = ["x=7"] ->
      exists w', Configure ParseFloat fs (run cs) files verbose w =
                   Returns (None, w') /\
                 ints (mem w') !! l = Some 7) /\
     (lines = ["x=notanumber"] ->
      exists w', Configure ParseFloat fs (run cs) files verbose w =
                   Returns (None, w') /\
                 ints (mem w') !! l = Some 4)).
Proof.
  intros Hcs Hne Ho. pose proof (well_formed_run cs Hcs) as Hwf.
  rewrite (Configure_opened fs (run cs) files verbose w lines Hne Ho).
  split; [|split].
  - destruct (scan_returns ParseFloat (run cs) verbose lines Hwf w) as (w' & E).
    rewrite E. eauto.
  - intros line rest w0 Hp.
    destruct (scan_line_problem _ _ _ _ Hp) as (w1 & E & Hmem).
    exists w1. split; [exact E|]. split; [exact Hmem|].
    apply scan_cons, E.
  - intros l -> H4. split; intros ->.
    + eexists. split; [reflexivity|]. cbn. apply lookup_insert_eq.
    + eexists. split; [reflexivity|]. rewrite report_mem. exact H4.
Qed.

End Scan.

Lemma setOption_dispatch_safe_witness :
  Forall modifiers_only sample_calls /\
  optionExists (run sample_calls) "Motto" = true /\
  exists ty fl l,
    OptionType (run sample_calls) "Motto" = type_bit ty /\
    option_flags (run sample_calls) !! ToUpper "Motto" =
      Some (Z.lor fl (type_bit ty)) /\
    target_map ty (run sample_calls) !! ToUpper "Motto" = Some l /\
    setOption sample_floats (run sample_calls) "Motto" " hi " true sample_world =
      branch sample_floats ty (run sample_calls) (ToUpper "Motto")
        (Z.lor fl (type_bit ty)) " hi " true sample_world /\
    exists e w',
      setOption sample_floats (run sample_calls) "Motto" " hi " true sample_world
      = Returns (e, w') /\
      forall u v, e <> Some (LogicalError u v).
Proof.
  assert (H1 : Forall modifiers_only sample_calls).
  { repeat constructor. }
  assert (H2 : optionExists (run sample_calls) "Motto" = true) by reflexivity.
  split; [exact H1|]. split; [exact H2|].
  exact (setOption_dispatch_safe sample_floats sample_calls "Motto" " hi " true
           sample_world H1 H2).
Defined.

Lemma Configure_succeeds_witness :
  Forall modifiers_only sample_calls /\
  first_found sample_fs ["a.conf"; "b.conf"] <> EmptyString /\
  os_Open sample_fs (first_found sample_fs ["a.conf"; "b.conf"]) =
    Some sample_lines /\
  exists w',
    Configure sample_floats sample_fs (run sample_calls) ["a.conf"; "b.conf"]
      true sample_world = Returns (None, w') /\
    scan sample_floats (run sample_calls) true sample_lines sample_world =
      Returns w'.
Proof.
  assert (H1 : Forall modifiers_only sample_calls).
  { repeat constructor. }
  assert (H2 : first_found sample_fs ["a.conf"; "b.conf"] <> EmptyString)
    by discriminate.
  assert (H3 : os_Open sample_fs (first_found sample_fs ["a.conf"; "b.conf"]) =
               Some sample_lines) by reflexivity.
  split; [exact H1|]. split; [exact H2|]. split; [exact H3|].
  exact (proj1 (Configure_succeeds sample_floats sample_calls sample_fs
                  ["a.conf"; "b.conf"] true sample_world sample_lines
                  H1 H2 H3)).
Defined.

(** ** File discovery and repeated runs *)

Section Parse.

Context {float64 : Type} (ParseFloat : string -> option float64).

Lemma first_found_none fs files :
  Forall (fun f => os_Stat fs f = false) files ->
  first_found fs files = EmptyString.
Proof.
  induction 1 as [|f rest Hf _ IH]; cbn [first_found]; [reflexivity|].
  rewrite Hf. exact IH.
Qed.

Lemma first_found_first fs pre p post :
  Forall (fun f => os_Stat fs f = false) pre ->
  os_Stat fs p = true ->
  first_found fs (pre ++ p :: post) = p.
Proof.
  induction 1 as [|f rest Hf _ IH]; intros Hp; cbn [first_found app].
  - rewrite Hp. reflexivity.
  - rewrite Hf. apply IH, Hp.
Qed.

Lemma os_Stat_nonempty fs p : os_Stat fs p = true -> p <> EmptyString.
Proof. intros H ->. discriminate H. Qed.

(** C8.  [Configure] reads the first candidate that exists and no
    other: with the candidates a, b of which only b exists it reads b.
    When no candidate exists the error is NoConfigFileFound, and when
    the first that exists cannot be opened it is FileOpenError. *)
Theorem Configure_first_existing (fs : filesystem) (r : registry)
    (files : list string) (verbose : bool) (w : world float64) :
  (Forall (fun f => os_Stat fs f = false) files ->
   Configure ParseFloat fs r files verbose w
   = Returns (Some NoConfigFileFound, w)) /\
  (forall pre p post,
     files = (pre ++ p :: post)%list ->
     Forall (fun f => os_Stat fs f = false) pre ->
     os_Stat fs p = true ->
     (os_Open fs p = None ->
      exists w', Configure ParseFloat fs r files verbose w
                 = Returns (Some (FileOpenError p), w') /\ mem w' = mem w) /\
     (forall lines,
        os_Open fs p = Some lines ->
        Configure ParseFloat fs r files verbose w =
        match scan ParseFloat r verbose lines w with
        | Returns w' => Returns (None, w')
        | Panics => Panics
        end)) /\
  (forall a b lines,
     files = [a; b] -> os_Stat fs a = false -> os_Stat fs b = true ->
     os_Open fs b = Some lines ->
     Configure ParseFloat fs r files verbose w =
     match scan ParseFloat r verbose lines w with
     | Returns w' => Returns (None, w')
     | Panics => Panics
     end).
Proof.
  assert (Hsel : forall pre p post,
            files = (pre ++ p :: post)%list ->
            Forall (fun f => os_Stat fs f = false) pre ->
            os_Stat fs p = true ->
            first_found fs files = p /\ p <> EmptyString).
  { intros pre p post -> Hpre Hp.
    split; [apply first_found_first; assumption|].
    apply (os_Stat_nonempty fs), Hp. }
  split; [|split].
  - intros H. unfold Configure. rewrite (first_found_none fs files H).
    reflexivity.
  - intros pre p post Hfiles Hpre Hp.
    destruct (Hsel pre p post Hfiles Hpre Hp) as [Hff Hne]. split.
    + intros Ho. unfold Configure. rewrite Hff.
      destruct (String.eqb_spec p EmptyString) as [E|_]; [contradiction|].
      rewrite Ho. eexists. split; [reflexivity|apply report_mem].
    + intros lines Ho. apply Configure_opened; rewrite Hff; assumption.
  - intros a b lines Hfiles Ha Hb Ho.
    destruct (Hsel [a] b [] Hfiles) as [Hff Hne]; [auto|exact Hb|].
    apply Configure_opened; rewrite Hff; assumption.
Qed.

(** C9.  A second run of [Configure] on the same file leaves every
    variable with the value that the first run gave it: the second run
    returns what the first returned, and the values are those after the
    first.  On a registry built without type bits in the flags arguments
    the first run does return. *)
Theorem Configure_idempotent (fs : filesystem) (r : registry)
    (files : list string) (verbose : bool) (w : world float64) :
  (forall e w1,
     Configure ParseFloat fs r files verbose w = Returns (e, w1) ->
     exists w2,
       Configure ParseFloat fs r files verbose w1 = Returns (e, w2) /\
       mem w2 = mem w1) /\
  (forall cs,
     r = run cs -> Forall modifiers_only cs ->
     exists e w1, Configure ParseFloat fs r files verbose w = Returns (e, w1)).
Proof.
  split.
  - unfold Configure.
    destruct (String.eqb (first_found fs files) EmptyString).
    { intros e w1 E. injection E as <- <-. eauto. }
    destruct (os_Open fs (first_found fs files)) as [lines|].
    2:{ unfold fail. intros e w1 E. injection E as <- <-.
        eexists. split; [reflexivity|]. apply report_mem. }
    destruct (scan_blind ParseFloat r verbose lines) as [Hp|(ws & msgs & H)].
    { intros e w1 E. rewrite Hp in E. discriminate E. }
    intros e w1 E. rewrite H in E. injection E as <- <-.
    rewrite H. eexists. split; [reflexivity|].
    cbn [mem after]. apply apply_writes_idem.
  - intros cs -> Hcs. unfold Configure.
    destruct (String.eqb (first_found fs files) EmptyString); [eauto|].
    destruct (os_Open fs (first_found fs files)) as [lines|];
      [|unfold fail; eauto].
    destruct (scan_returns ParseFloat (run cs) verbose lines
                (well_formed_run cs Hcs) w) as (w' & ->).
    eauto.
Qed.

End Parse.

Lemma Configure_first_existing_witness :
  os_Stat sample_fs "a.conf" = false /\
  os_Stat sample_fs "b.conf" = true /\
  os_Open sample_fs "b.conf" = Some sample_lines /\
  Configure sample_floats sample_fs (run sample_calls) ["a.conf"; "b.conf"]
    true sample_world =
  match scan sample_floats (run sample_calls) true sample_lines sample_world with
  | Returns w' => Returns (None, w')
  | Panics => Panics
  end.
Proof.
  assert (H1 : os_Stat sample_fs "a.conf" = false) by reflexivity.
  assert (H2 : os_Stat sample_fs "b.conf" = true) by reflexivity.
  assert (H3 : os_Open sample_fs "b.conf" = Some sample_lines) by reflexivity.
  split; [exact H1|]. split; [exact H2|]. split; [exact H3|].
  exact (proj2 (proj2 (Configure_first_existing sample_floats sample_fs
                         (run sample_calls) ["a.conf"; "b.conf"] true
                         sample_world))
           "a.conf" "b.conf" sample_lines eq_refl H1 H2 H3).
Defined.

Lemma Configure_idempotent_witness :
  Configure sample_floats sample_fs (run sample_calls) ["b.conf"] false
    sample_world =
    Returns (None, write_int 0%nat 42
                     (write_bool 2%nat true (write_int 3%nat 7 sample_world))) /\
  exists w2,
    Configure sample_floats sample_fs (run sample_calls) ["b.conf"] false
      (write_int 0%nat 42
         (write_bool 2%nat true (write_int 3%nat 7 sample_world))) =
      Returns (None, w2) /\
    mem w2 =
    mem (write_int 0%nat 42
           (write_bool 2%nat true (write_int 3%nat 7 sample_world))).
Proof.
  assert (H : Configure sample_floats sample_fs (run sample_calls) ["b.conf"]
                false sample_world =
              Returns (None, write_int 0%nat 42
                               (write_bool 2%nat true
                                  (write_int 3%nat 7 sample_world))))
    by reflexivity.
  split; [exact H|].
  exact (proj1 (Configure_idempotent sample_floats sample_fs (run sample_calls)
                  ["b.conf"] false sample_world) None _ H).
Defined.

(** * Further properties of the code *)

(** ** Bit masks: [sumOfBits] and [hasAttr] *)

Lemma land_bit (b : Z) (i : Z) :
  0 <= i ->
  negb (Z.land b (2 ^ i) =? 0) = Z.testbit b i.
Proof.
  intros Hi. destruct (Z.testbit b i) eqn:Hb.
  - apply negb_true_iff, Z.eqb_neq. intros E.
    apply (f_equal (fun z => Z.testbit z i)) in E.
    rewrite Z.land_spec, Hb, Z.pow2_bits_true, Z.bits_0 in E by exact Hi.
    discriminate E.
  - apply negb_false_iff, Z.eqb_eq. apply Z.bits_inj'. intros n Hn.
    rewrite Z.land_spec, Z.bits_0, Z.pow2_bits_eqb by exact Hi.
    destruct (Z.eqb_spec i n) as [->|_]; [rewrite Hb|rewrite andb_false_r];
      reflexivity.
Qed.

Lemma sumOfBits_loop_spec (b : Z) (n : nat) :
  forall (i : nat) (bit sum : Z),
    (n <> 0%nat -> bit = 2 ^ Z.of_nat i) ->
    (i + n <= 8)%nat -> 0 <= sum -> sum + Z.of_nat n < 256 ->
    sumOfBits_loop n b bit sum =
    sum + fold_right (fun j acc => Z.b2z (Z.testbit b (Z.of_nat j)) + acc) 0
            (seq i n).
Proof.
  induction n as [|n IH]; intros i bit sum Hbit Hin Hs Hlt.
  - cbn. lia.
  - cbn [sumOfBits_loop seq fold_right].
    rewrite (Hbit ltac:(discriminate)), land_bit by lia.
    rewrite (IH (S i)).
    + destruct (Z.testbit b (Z.of_nat i)); cbn [Z.b2z]; unfold uint8;
        [rewrite Z.mod_small by lia|]; lia.
    + intros Hn. rewrite Z.shiftl_mul_pow2 by lia.
      replace (2 ^ Z.of_nat i * 2 ^ 1) with (2 ^ Z.of_nat (S i))
        by (rewrite Nat2Z.inj_succ, Z.pow_succ_r by lia; lia).
      unfold uint8. apply Z.mod_small. split; [apply Z.pow_nonneg; lia|].
      change 256 with (2 ^ 8). apply Z.pow_lt_mono_r; lia.
    + lia.
    + destruct (Z.testbit b (Z.of_nat i)); unfold uint8;
        [rewrite Z.mod_small by lia|]; lia.
    + destruct (Z.testbit b (Z.of_nat i)); unfold uint8;
        [rewrite Z.mod_small by lia|]; lia.
Qed.

Lemma sumOfBits_popcount (b : Z) : sumOfBits b = popcount8 b.
Proof.
  unfold sumOfBits, popcount8.
  rewrite (sumOfBits_loop_spec b 8 0 1 0); [reflexivity|reflexivity|lia|lia|lia].
Qed.

Lemma popcount8_bounds (b : Z) : 0 <= popcount8 b <= 8.
Proof.
  unfold popcount8. cbn [seq fold_right].
  repeat match goal with
         | |- context [Z.testbit b ?i] => destruct (Z.testbit b i)
         end; cbn; lia.
Qed.

Lemma popcount8_lor (a b : Z) :
  Z.land a b = 0 -> popcount8 (Z.lor a b) = popcount8 a + popcount8 b.
Proof.
  intros H. unfold popcount8. cbn [seq fold_right].
  assert (Hbit : forall i, Z.b2z (Z.testbit (Z.lor a b) i) =
                           Z.b2z (Z.testbit a i) + Z.b2z (Z.testbit b i)).
  { intros i. rewrite Z.lor_spec.
    pose proof (f_equal (fun z => Z.testbit z i) H) as E. cbn in E.
    rewrite Z.land_spec, Z.bits_0 in E.
    destruct (Z.testbit a i), (Z.testbit b i); cbn in *;
      try discriminate E; reflexivity. }
  rewrite !Hbit. lia.
Qed.

Lemma popcount8_zero (b : Z) : popcount8 b = 0 <-> b mod 256 = 0.
Proof.
  assert (Hbits : popcount8 b = 0 <->
                  forall i, 0 <= i < 8 -> Z.testbit b i = false).
  { unfold popcount8. cbn [seq fold_right]. split.
    - intros H i Hi.
      assert (Hc : i = 0 \/ i = 1 \/ i = 2 \/ i = 3 \/ i = 4 \/ i = 5 \/
                   i = 6 \/ i = 7) by lia.
      change (Z.of_nat 0) with 0 in H. change (Z.of_nat 1) with 1 in H.
      change (Z.of_nat 2) with 2 in H. change (Z.of_nat 3) with 3 in H.
      change (Z.of_nat 4) with 4 in H. change (Z.of_nat 5) with 5 in H.
      change (Z.of_nat 6) with 6 in H. change (Z.of_nat 7) with 7 in H.
      destruct (Z.testbit b 0) eqn:E0, (Z.testbit b 1) eqn:E1,
        (Z.testbit b 2) eqn:E2, (Z.testbit b 3) eqn:E3,
        (Z.testbit b 4) eqn:E4, (Z.testbit b 5) eqn:E5,
        (Z.testbit b 6) eqn:E6, (Z.testbit b 7) eqn:E7;
        cbn in H; try lia.
      repeat destruct Hc as [->|Hc]; try assumption. subst i. assumption.
    - intros H.
      rewrite (H (Z.of_nat 0)), (H (Z.of_nat 1)), (H (Z.of_nat 2)),
        (H (Z.of_nat 3)), (H (Z.of_nat 4)), (H (Z.of_nat 5)),
        (H (Z.of_nat 6)), (H (Z.of_nat 7)) by lia.
      reflexivity. }
  rewrite Hbits. change 256 with (2 ^ 8). rewrite <- Z.land_ones by lia. split.
  - intros H. apply Z.bits_inj'. intros n Hn. rewrite Z.land_spec, Z.bits_0.
    destruct (Z.ltb_spec n 8) as [Hlt|Hge].
    + rewrite H by lia. reflexivity.
    + rewrite Z.ones_spec_high by lia. apply andb_false_r.
  - intros H i Hi. apply (f_equal (fun z => Z.testbit z i)) in H.
    rewrite Z.land_spec, Z.bits_0, Z.ones_spec_low, andb_true_r in H by lia.
    exact H.
Qed.

Lemma land_uint8 (val attrib : Z) :
  0 <= attrib < 256 -> (Z.land val attrib) mod 256 = Z.land val attrib.
Proof.
  intros H. change 256 with (2 ^ 8). rewrite <- Z.land_ones by lia.
  rewrite <- Z.land_assoc. f_equal.
  rewrite Z.land_ones by lia. apply Z.mod_small. exact H.
Qed.

Lemma sumOfBits_zero (b : Z) : sumOfBits b = 0 <-> b mod 256 = 0.
Proof. rewrite sumOfBits_popcount. apply popcount8_zero. Qed.

(** X1.  [sumOfBits] returns the number of bits set among the eight
    bits of its argument: a number from 0 to 8, which is 0 exactly for
    the mask without bits. *)
Theorem sumOfBits_counts (bmask : Z) :
  sumOfBits bmask = popcount8 bmask /\
  0 <= sumOfBits bmask <= 8 /\
  (sumOfBits bmask = 0 <-> bmask mod 256 = 0).
Proof.
  rewrite sumOfBits_popcount. split; [reflexivity|].
  split; [apply popcount8_bounds|apply popcount8_zero].
Qed.

(** X2.  The count of a union of two masks without a common bit is the
    sum of the two counts. *)
Theorem sumOfBits_disjoint (a b : Z) :
  Z.land a b = 0 ->
  sumOfBits (Z.lor a b) = sumOfBits a + sumOfBits b.
Proof. intros H. rewrite !sumOfBits_popcount. apply popcount8_lor, H. Qed.

Lemma sumOfBits_disjoint_witness :
  Z.land STRIP (Z.lor UPPER LOWER) = 0 /\
  sumOfBits (Z.lor STRIP (Z.lor UPPER LOWER)) =
  sumOfBits STRIP + sumOfBits (Z.lor UPPER LOWER).
Proof. split; [reflexivity|apply sumOfBits_disjoint; reflexivity]. Defined.

(** X3.  [hasAttr val attrib] holds exactly when [val] and [attrib] have
    a bit in common, that is when [sumOfBits] of their intersection is
    not 0. *)
Theorem hasAttr_common_bit (val attrib : Z) :
  0 <= attrib < 256 ->
  hasAttr val attrib = negb (sumOfBits (Z.land val attrib) =? 0) /\
  (hasAttr val attrib = true <->
   exists i, 0 <= i < 8 /\ Z.testbit val i = true /\ Z.testbit attrib i = true).
Proof.
  intros H.
  assert (Hz : (sumOfBits (Z.land val attrib) =? 0) = (Z.land val attrib =? 0)).
  { pose proof (sumOfBits_zero (Z.land val attrib)) as Hz.
    rewrite land_uint8 in Hz by exact H.
    destruct (Z.eqb_spec (Z.land val attrib) 0) as [E|E].
    - apply Z.eqb_eq, Hz, E.
    - apply Z.eqb_neq. intros E'. apply E, Hz, E'. }
  split; [unfold hasAttr; rewrite Hz; destruct (_ =? 0); reflexivity|].
  unfold hasAttr. destruct (Z.eqb_spec (Z.land val attrib) 0) as [E|E]; split.
  - discriminate.
  - intros (i & Hi & Hv & Ha). exfalso.
    apply (f_equal (fun z => Z.testbit z i)) in E.
    rewrite Z.land_spec, Hv, Ha, Z.bits_0 in E. discriminate E.
  - intros _.
    pose proof (sumOfBits_popcount (Z.land val attrib)) as Hp.
    pose proof (sumOfBits_zero (Z.land val attrib)) as Hz0.
    rewrite land_uint8 in Hz0 by exact H.
    assert (Hne : popcount8 (Z.land val attrib) <> 0).
    { rewrite <- Hp. intros E'. apply E, Hz0, E'. }
    unfold popcount8 in Hne. cbn [seq fold_right] in Hne.
    assert (Hex : exists i, 0 <= i < 8 /\
                            Z.testbit (Z.land val attrib) i = true).
    { destruct (Z.testbit (Z.land val attrib) (Z.of_nat 0)) eqn:E0;
        [exists 0; split; [lia|exact E0]|].
      destruct (Z.testbit (Z.land val attrib) (Z.of_nat 1)) eqn:E1;
        [exists 1; split; [lia|exact E1]|].
      destruct (Z.testbit (Z.land val attrib) (Z.of_nat 2)) eqn:E2;
        [exists 2; split; [lia|exact E2]|].
      destruct (Z.testbit (Z.land val attrib) (Z.of_nat 3)) eqn:E3;
        [exists 3; split; [lia|exact E3]|].
      destruct (Z.testbit (Z.land val attrib) (Z.of_nat 4)) eqn:E4;
        [exists 4; split; [lia|exact E4]|].
      destruct (Z.testbit (Z.land val attrib) (Z.of_nat 5)) eqn:E5;
        [exists 5; split; [lia|exact E5]|].
      destruct (Z.testbit (Z.land val attrib) (Z.of_nat 6)) eqn:E6;
        [exists 6; split; [lia|exact E6]|].
      destruct (Z.testbit (Z.land val attrib) (Z.of_nat 7)) eqn:E7;
        [exists 7; split; [lia|exact E7]|].
      exfalso. apply Hne. reflexivity. }
    destruct Hex as (i & Hi & Hb). exists i. split; [exact Hi|].
    rewrite Z.land_spec in Hb. apply andb_true_iff in Hb. exact Hb.
  - reflexivity.
Qed.

Lemma hasAttr_common_bit_witness :
  0 <= UNSIGNED < 256 /\
  hasAttr (Z.lor UNSIGNED INT) UNSIGNED =
  negb (sumOfBits (Z.land (Z.lor UNSIGNED INT) UNSIGNED) =? 0).
Proof.
  assert (H : 0 <= UNSIGNED < 256) by (unfold UNSIGNED; lia).
  split; [exact H|].
  exact (proj1 (hasAttr_common_bit (Z.lor UNSIGNED INT) UNSIGNED H)).
Defined.

(** ** Boolean values: [boolRead] and the Boolean branch *)

Lemma lower_upper_char (c : ascii) : lower_char (upper_char c) = lower_char c.
Proof. destruct c as [[] [] [] [] [] [] [] []]; reflexivity. Qed.



Lemma IsSpace_upper (c : ascii) : IsSpace (upper_char c) = IsSpace c.
Proof. destruct c as [[] [] [] [] [] [] [] []]; reflexivity. Qed.

Lemma map_chars_compose (f g h : ascii -> ascii) (s : string) :
  (forall c, f (g c) = h c) -> map_chars f (map_chars g s) = map_chars h s.
Proof.
  intros H. induction s as [|c s IH]; cbn; [reflexivity|].
  rewrite H, IH. reflexivity.
Qed.


Lemma ToLower_ToUpper (s : string) : ToLower (ToUpper s) = ToLower s.
Proof. apply map_chars_compose, lower_upper_char. Qed.

(** A case map that keeps white space as white space goes through the
    trimming. *)
Lemma map_chars_trim_left (f : ascii -> ascii) (s : string) :
  (forall c, IsSpace (f c) = IsSpace c) ->
  trim_left (map_chars f s) = map_chars f (trim_left s).
Proof.
  intros H. induction s as [|c s IH]; cbn; [reflexivity|].
  rewrite H. destruct (IsSpace c); [exact IH|reflexivity].
Qed.

Lemma map_chars_trim_right (f : ascii -> ascii) (s : string) :
  (forall c, IsSpace (f c) = IsSpace c) ->
  trim_right (map_chars f s) = map_chars f (trim_right s).
Proof.
  intros H. induction s as [|c s IH]; cbn; [reflexivity|].
  rewrite IH, H. destruct (trim_right s); cbn; [|reflexivity].
  destruct (IsSpace c); reflexivity.
Qed.

Lemma map_chars_TrimSpace (f : ascii -> ascii) (s : string) :
  (forall c, IsSpace (f c) = IsSpace c) ->
  TrimSpace (map_chars f s) = map_chars f (TrimSpace s).
Proof.
  intros H. unfold TrimSpace.
  rewrite map_chars_trim_left, map_chars_trim_right by exact H. reflexivity.
Qed.





Lemma boolRead_text (token : string) :
  boolRead token =
  if existsb (String.eqb (ToLower token)) boolean_trues then (true, None)
  else if existsb (String.eqb (ToLower token)) boolean_falses then (false, None)
  else (false, Some (quoted token +:+ " is not a recognized boolean value.")).
Proof. reflexivity. Qed.

(** X4.  [boolRead] and the Boolean branch of [setOption] read the same
    values: the option receives [b] exactly when [boolRead] of the
    trimmed value returns [b] without error, and [setOption] fails,
    leaving the variables, exactly when [boolRead] returns an error.
    [boolRead] never returns true together with an error. *)
Theorem boolRead_agrees {float64 : Type} (ParseFloat : string -> option float64)
    (r : registry) (name value : string) (verbose : bool)
    (w : world float64) (l : loc) :
  bool_map r !! ToUpper name = Some l ->
  option_flags r !! ToUpper name = Some BOOL ->
  (forall b, boolRead (TrimSpace value) = (b, None) ->
     setOption ParseFloat r name value verbose w =
       Returns (None, write_bool l b w)) /\
  (forall b msg, boolRead (TrimSpace value) = (b, Some msg) ->
     b = false /\
     exists e w', setOption ParseFloat r name value verbose w =
                    Returns (Some e, w') /\ mem w' = mem w).
Proof.
  intros Hm Hf.
  rewrite (setOption_bool ParseFloat r name value verbose w l Hm Hf).
  cbv zeta. rewrite boolRead_text.
  destruct (existsb (String.eqb (ToLower (TrimSpace value))) boolean_trues).
  { split; [intros b E; injection E as <-; reflexivity|intros b msg E; discriminate E]. }
  destruct (existsb (String.eqb (ToLower (TrimSpace value))) boolean_falses).
  { split; [intros b E; injection E as <-; reflexivity|intros b msg E; discriminate E]. }
  split; [intros b E; discriminate E|].
  intros b msg E. injection E as <- _. split; [reflexivity|].
  eexists _, _. split; [reflexivity|apply report_mem].
Qed.

Lemma boolRead_agrees_witness :
  bool_map (run sample_calls) !! ToUpper "debug" = Some 2%nat /\
  option_flags (run sample_calls) !! ToUpper "debug" = Some BOOL /\
  boolRead (TrimSpace " On ") =
    (false, Some (quoted "On" +:+ " is not a recognized boolean value.")) /\
  exists e w', setOption sample_floats (run sample_calls) "debug" " On " true
                 sample_world = Returns (Some e, w') /\
               mem w' = mem sample_world.
Proof.
  assert (H1 : bool_map (run sample_calls) !! ToUpper "debug" = Some 2%nat)
    by reflexivity.
  assert (H2 : option_flags (run sample_calls) !! ToUpper "debug" = Some BOOL)
    by reflexivity.
  assert (H3 : boolRead (TrimSpace " On ") =
               (false, Some (quoted "On" +:+ " is not a recognized boolean value.")))
    by reflexivity.
  split; [exact H1|]. split; [exact H2|]. split; [exact H3|].
  exact (proj2 (proj2 (boolRead_agrees sample_floats (run sample_calls) "debug"
                         " On " true sample_world 2%nat H1 H2) _ _ H3)).
Defined.

(** X5.  Boolean values in ASCII are read without regard to letter
    case: [boolRead] gives the same value, with or without error, for a
    token and for its upper-case form, and [setOption] on a Boolean
    option does the same for a value and for its upper-case form. *)
Theorem bool_case_insensitive {float64 : Type}
    (ParseFloat : string -> option float64)
    (r : registry) (name value : string) (verbose : bool)
    (w : world float64) (l : loc) :
  bool_map r !! ToUpper name = Some l ->
  option_flags r !! ToUpper name = Some BOOL ->
  all_chars is_ascii value = true ->
  setOption ParseFloat r name (ToUpper value) verbose w =
    setOption ParseFloat r name value verbose w /\
  (boolRead (ToUpper value)).1 = (boolRead value).1 /\
  ((boolRead (ToUpper value)).2 = None <-> (boolRead value).2 = None).
Proof.
  intros Hm Hf _. split.
  - assert (E : ToLower (TrimSpace (ToUpper value)) = ToLower (TrimSpace value)).
    { unfold ToUpper.
      rewrite (map_chars_TrimSpace upper_char value IsSpace_upper).
      apply ToLower_ToUpper. }
    rewrite !(setOption_bool ParseFloat r name _ verbose w l Hm Hf). cbv zeta.
    rewrite E. reflexivity.
  - rewrite !boolRead_text, ToLower_ToUpper.
    destruct (existsb _ boolean_trues); [split; [reflexivity|tauto]|].
    destruct (existsb _ boolean_falses); [split; [reflexivity|tauto]|].
    split; [reflexivity|]. cbn [snd]. split; discriminate.
Qed.

Lemma bool_case_insensitive_witness :
  bool_map (run sample_calls) !! ToUpper "debug" = Some 2%nat /\
  option_flags (run sample_calls) !! ToUpper "debug" = Some BOOL /\
  all_chars is_ascii "yes" = true /\
  setOption sample_floats (run sample_calls) "debug" (ToUpper "yes") true
    sample_world =
  setOption sample_floats (run sample_calls) "debug" "yes" true sample_world.
Proof.
  assert (H1 : bool_map (run sample_calls) !! ToUpper "debug" = Some 2%nat)
    by reflexivity.
  assert (H2 : option_flags (run sample_calls) !! ToUpper "debug" = Some BOOL)
    by reflexivity.
  assert (H3 : all_chars is_ascii "yes" = true) by reflexivity.
  split; [exact H1|]. split; [exact H2|]. split; [exact H3|].
  exact (proj1 (bool_case_insensitive sample_floats (run sample_calls) "debug"
                  "yes" true sample_world 2%nat H1 H2 H3)).
Defined.

(** ** The tokens of Float options *)











(** ** Stored values *)
















(** ** Registration calls *)

Lemma do_call_outcome (r : registry) (c : call) :
  c <> CallReset ->
  do_call r c =
  if negb (Z.land (call_flags c) (call_mask c) =? 0) then
    ((do_call r c).1, r)
  else if optionExists r (call_name c) then
    (Some (DuplicateOption (ToUpper (call_name c))), r)
  else (None, (do_call r c).2).
Proof.
  intros Hc. destruct c as [|t n f|t n f|t n f|t n]; [contradiction| | | |];
    cbn [do_call call_flags call_mask call_name];
    unfold AddString, AddInt, AddFloat, AddBool;
    rewrite optionExists_upper;
    try (destruct (negb _); [reflexivity|]);
    try change (negb (Z.land NONE NONE =? 0)) with false; cbv iota;
    destruct (optionExists r n); reflexivity.
Qed.

Lemma do_call_accepts (r : registry) (c : call) :
  c <> CallReset ->
  Z.land (call_flags c) (call_mask c) = 0 ->
  optionExists r (call_name c) = false ->
  (do_call r c).1 = None.
Proof.
  intros Hc Hz Hex. rewrite (do_call_outcome r c Hc), Hz, Hex. reflexivity.
Qed.

(** X9.  A registration call other than [Reset] succeeds exactly when
    its flags argument has no bit of the mask of the call and no option
    is declared under the canonical form of its name; a call that
    returns an error leaves the registry as it was. *)
Theorem registration_outcome (r : registry) (c : call) :
  c <> CallReset ->
  ((do_call r c).1 = None <->
   Z.land (call_flags c) (call_mask c) = 0 /\
   optionExists r (call_name c) = false) /\
  (forall e, (do_call r c).1 = Some e -> (do_call r c).2 = r).
Proof.
  intros Hc. pose proof (do_call_outcome r c Hc) as E.
  destruct (Z.eqb_spec (Z.land (call_flags c) (call_mask c)) 0) as [Hz|Hz];
    cbn [negb] in E.
  - destruct (optionExists r (call_name c)) eqn:Hex; rewrite E; cbn [fst snd].
    + split; [split; [discriminate|intros [_ H]; discriminate H]|reflexivity].
    + split; [split; [auto|reflexivity]|discriminate].
  - assert (Hsome : (do_call r c).1 <> None).
    { destruct c as [|t n f|t n f|t n f|t n]; [contradiction| | | |];
        cbn [do_call call_flags call_mask] in *;
        unfold AddString, AddInt, AddFloat;
        try (apply Z.eqb_neq in Hz; rewrite Hz; discriminate).
      exfalso. apply Hz. reflexivity. }
    split; [split; [intros H; contradiction|intros [H _]; contradiction]|].
    intros e _. rewrite E. reflexivity.
Qed.

Lemma registration_outcome_witness :
  CallAddInt 7%nat "Count" STRIP <> CallReset /\
  (do_call (run sample_calls) (CallAddInt 7%nat "Count" STRIP)).1 =
    Some (UnsupportedFlag "integer") /\
  (do_call (run sample_calls) (CallAddInt 7%nat "Count" STRIP)).2 =
    run sample_calls.
Proof.
  assert (H1 : CallAddInt 7%nat "Count" STRIP <> CallReset) by discriminate.
  assert (H2 : (do_call (run sample_calls) (CallAddInt 7%nat "Count" STRIP)).1 =
               Some (UnsupportedFlag "integer")) by reflexivity.
  split; [exact H1|]. split; [exact H2|].
  exact (proj2 (registration_outcome (run sample_calls)
                  (CallAddInt 7%nat "Count" STRIP) H1) _ H2).
Defined.

Lemma OptionType_maps (r : registry) (name : string) :
  OptionType r name =
  if bool_decide (is_Some (target_map TString r !! ToUpper name)) then STRING
  else if bool_decide (is_Some (target_map TInt r !! ToUpper name)) then INT
  else if bool_decide (is_Some (target_map TFloat r !! ToUpper name)) then FLOAT
  else if bool_decide (is_Some (target_map TBool r !! ToUpper name)) then BOOL
  else NONE.
Proof. reflexivity. Qed.

Lemma OptionType_fresh (r r' : registry) (U : string) (ty : otype) (t : loc) :
  (forall ty0, target_map ty0 r !! U = None) ->
  target_map ty r' = <[U := t]> (target_map ty r) ->
  (forall ty', ty' <> ty -> target_map ty' r' = target_map ty' r) ->
  forall name, ToUpper name = U -> OptionType r' name = type_bit ty.
Proof.
  intros Hnone Hmap Hother name Hname. rewrite OptionType_maps, Hname.
  destruct ty; rewrite Hmap, ?Hother by discriminate;
    rewrite lookup_insert_eq, ?Hnone;
    repeat case_bool_decide; try reflexivity;
    repeat match goal with
           | H : is_Some None |- _ => destruct H; discriminate
           | H : ~ is_Some (Some _) |- _ => exfalso; apply H; eauto
           end.
Qed.

(** X10.  After a successful registration under a name in ASCII,
    [OptionType] returns the type of the call for that name written in
    ASCII in every letter case, and [optionExists] holds for it. *)
Theorem registered_type (r : registry) (c : call) (name : string) :
  c <> CallReset ->
  (do_call r c).1 = None ->
  all_chars is_ascii (call_name c) = true ->
  all_chars is_ascii name = true ->
  ToUpper name = ToUpper (call_name c) ->
  OptionType (do_call r c).2 name = call_type c /\
  optionExists (do_call r c).2 name = true.
Proof.
  intros Hc Hok _ _ Hname.
  assert (Hty : OptionType (do_call r c).2 name = call_type c).
  { destruct c as [|t n f|t n f|t n f|t n]; [contradiction| | | |];
      cbn [do_call call_name call_type] in *;
      unfold AddString, AddInt, AddFloat, AddBool in *;
      repeat match goal with
             | H : context [if ?b then _ else _] |- _ =>
                 destruct b eqn:?; cbn [fst snd] in H; try discriminate H
             end;
      match goal with
      | E : optionExists r (ToUpper n) = false |- _ =>
          apply (declarations_insert r n EmptyString) in E;
          pose proof (declarations_0_maps r _ E) as Hnone
      end; cbn [snd];
      [ apply (OptionType_fresh r _ (ToUpper n) TString t Hnone)
      | apply (OptionType_fresh r _ (ToUpper n) TInt t Hnone)
      | apply (OptionType_fresh r _ (ToUpper n) TFloat t Hnone)
      | apply (OptionType_fresh r _ (ToUpper n) TBool t Hnone) ];
      first [exact Hname | reflexivity
            | intros [] Hne; try reflexivity; congruence]. }
  split; [exact Hty|]. unfold optionExists. rewrite Hty.
  destruct c; [contradiction| | | |]; reflexivity.
Qed.

Lemma registered_type_witness :
  CallAddFloat 7%nat "ratio" NONE <> CallReset /\
  (do_call (run sample_calls) (CallAddFloat 7%nat "ratio" NONE)).1 = None /\
  all_chars is_ascii (call_name (CallAddFloat 7%nat "ratio" NONE)) = true /\
  all_chars is_ascii "Ratio" = true /\
  ToUpper "Ratio" = ToUpper (call_name (CallAddFloat 7%nat "ratio" NONE)) /\
  OptionType (do_call (run sample_calls) (CallAddFloat 7%nat "ratio" NONE)).2
    "Ratio" = FLOAT.
Proof.
  assert (H1 : CallAddFloat 7%nat "ratio" NONE <> CallReset) by discriminate.
  assert (H2 : (do_call (run sample_calls)
                  (CallAddFloat 7%nat "ratio" NONE)).1 = None) by reflexivity.
  assert (H3 : ToUpper "Ratio" =
               ToUpper (call_name (CallAddFloat 7%nat "ratio" NONE)))
    by reflexivity.
  assert (Ha : all_chars is_ascii
                 (call_name (CallAddFloat 7%nat "ratio" NONE)) = true)
    by reflexivity.
  assert (Hb : all_chars is_ascii "Ratio" = true) by reflexivity.
  split; [exact H1|]. split; [exact H2|]. split; [exact Ha|].
  split; [exact Hb|]. split; [exact H3|].
  exact (proj1 (registered_type (run sample_calls)
                  (CallAddFloat 7%nat "ratio" NONE) "Ratio" H1 H2 Ha Hb H3)).
Defined.

(** X11.  In a registry built by calls without type bits in their flags
    arguments the two records of an option agree: the flags word of a
    declared name holds exactly one type bit, the one that [OptionType]
    returns, and a name without flags word has the type NONE. *)
Theorem flags_type_agree (cs : list call) (name : string) :
  Forall modifiers_only cs ->
  match option_flags (run cs) !! ToUpper name with
  | Some flags =>
      Z.land flags all_types = OptionType (run cs) name /\
      OptionType (run cs) name <> NONE
  | None => OptionType (run cs) name = NONE
  end.
Proof.
  intros Hcs. pose proof (well_formed_run cs Hcs (ToUpper name)) as Hwf.
  destruct Hwf as [Hu|(ty & fl & l & Hd)].
  - destruct Hu as [Hf Hm]. rewrite Hf.
    apply OptionType_undeclared. split; assumption.
  - rewrite (OptionType_declared _ _ _ _ _ Hd).
    destruct Hd as (Hf & Hfl & _). rewrite Hf.
    rewrite Z.land_lor_distr_l, Hfl, Z.lor_0_l.
    destruct ty; split; (reflexivity || discriminate).
Qed.

Lemma flags_type_agree_witness :
  Forall modifiers_only sample_calls /\
  match option_flags (run sample_calls) !! ToUpper "count" with
  | Some flags =>
      Z.land flags all_types = OptionType (run sample_calls) "count" /\
      OptionType (run sample_calls) "count" <> NONE
  | None => OptionType (run sample_calls) "count" = NONE
  end.
Proof.
  assert (H : Forall modifiers_only sample_calls) by (repeat constructor).
  split; [exact H|]. exact (flags_type_agree sample_calls "count" H).
Defined.

Lemma call_same_at (r : registry) (c : call) (name : string) :
  c <> CallReset ->
  (optionExists r (call_name c) = false ->
   ToUpper (call_name c) <> ToUpper name) ->
  same_at r (do_call r c).2 (ToUpper name).
Proof.
  intros Hc Hne.
  assert (Hsame : same_at r r (ToUpper name)) by (split; reflexivity).
  destruct c as [|t n f|t n f|t n f|t n]; [contradiction| | | |];
    cbn [do_call call_name] in *;
    unfold AddString, AddInt, AddFloat, AddBool;
    try (destruct (negb _); [exact Hsame|]);
    (destruct (optionExists r (ToUpper n)) eqn:E; [exact Hsame|]);
    rewrite optionExists_upper in E; specialize (Hne E);
    (split; [cbn; apply lookup_insert_ne, Hne|]);
    intros []; cbn; try reflexivity; apply lookup_insert_ne, Hne.
Qed.

Lemma same_at_OptionType (r r' : registry) (name : string) :
  same_at r r' (ToUpper name) -> OptionType r' name = OptionType r name.
Proof.
  intros [_ H]. rewrite !OptionType_maps, !H. reflexivity.
Qed.

(** X12.  A registration call changes at most the declaration of its
    own canonical name, and only when that name was free: under a
    declared name, and under every other canonical name, the type, the
    flags and the target stay as they were.  Only [Reset] removes
    declarations. *)
Theorem registration_frame (r : registry) (c : call) (name : string) :
  c <> CallReset ->
  optionExists r name = true \/ ToUpper (call_name c) <> ToUpper name ->
  OptionType (do_call r c).2 name = OptionType r name /\
  option_flags (do_call r c).2 !! ToUpper name = option_flags r !! ToUpper name /\
  forall ty,
    target_map ty (do_call r c).2 !! ToUpper name =
    target_map ty r !! ToUpper name.
Proof.
  intros Hc Hor.
  assert (Hsame : same_at r (do_call r c).2 (ToUpper name)).
  { apply call_same_at; [exact Hc|]. intros Hfree.
    destruct Hor as [Hex|Hne]; [|exact Hne].
    intros Heq. rewrite optionExists_declarations in Hfree, Hex.
    rewrite Heq in Hfree. congruence. }
  split; [exact (same_at_OptionType _ _ _ Hsame)|exact Hsame].
Qed.

Lemma registration_frame_witness :
  CallAddInt 7%nat "COUNT" NONE <> CallReset /\
  (optionExists (run sample_calls) "count" = true \/
   ToUpper (call_name (CallAddInt 7%nat "COUNT" NONE)) <> ToUpper "count") /\
  OptionType (do_call (run sample_calls) (CallAddInt 7%nat "COUNT" NONE)).2
    "count" = OptionType (run sample_calls) "count".
Proof.
  assert (H1 : CallAddInt 7%nat "COUNT" NONE <> CallReset) by discriminate.
  assert (H2 : optionExists (run sample_calls) "count" = true \/
               ToUpper (call_name (CallAddInt 7%nat "COUNT" NONE)) <>
               ToUpper "count") by (left; reflexivity).
  split; [exact H1|]. split; [exact H2|].
  exact (proj1 (registration_frame (run sample_calls)
                  (CallAddInt 7%nat "COUNT" NONE) "count" H1 H2)).
Defined.

Lemma run_app (cs cs' : list call) :
  run (cs ++ cs') = fold_left (fun r c => (do_call r c).2) cs' (run cs).
Proof. unfold run. apply fold_left_app. Qed.

(** X13.  [Reset] forgets every earlier call: the registry after a
    history is the one after the calls that follow its last [Reset].
    Right after [Reset] no name has a type, every entry of a file is an
    unrecognized option, and a registration whose flags pass the flag
    check succeeds under any name. *)
Theorem Reset_forgets (cs cs' : list call) (name : string) :
  run (cs ++ CallReset :: cs') = run cs' /\
  OptionType (run (cs ++ [CallReset])) name = NONE /\
  (forall (float64 : Type) (ParseFloat : string -> option float64)
          (value : string) (verbose : bool) (w : world float64),
     exists w', setOption ParseFloat (run (cs ++ [CallReset])) name value
                  verbose w =
                  Returns (Some (UnrecognizedOption (ToUpper name)), w') /\
                mem w' = mem w) /\
  (forall c, c <> CallReset ->
     Z.land (call_flags c) (call_mask c) = 0 ->
     (do_call (run (cs ++ [CallReset])) c).1 = None).
Proof.
  assert (E : run (cs ++ [CallReset]) = Reset).
  { rewrite run_app. reflexivity. }
  split; [rewrite run_app; reflexivity|]. rewrite E.
  split; [reflexivity|]. split.
  - intros float64 ParseFloat value verbose w.
    rewrite setOption_undeclared by reflexivity.
    eexists. split; [reflexivity|apply report_mem].
  - intros c Hc Hz. apply (do_call_accepts Reset c Hc Hz). reflexivity.
Qed.

Lemma Reset_forgets_witness :
  CallAddInt 7%nat "count" UNSIGNED <> CallReset /\
  Z.land (call_flags (CallAddInt 7%nat "count" UNSIGNED))
    (call_mask (CallAddInt 7%nat "count" UNSIGNED)) = 0 /\
  (do_call (run (sample_calls ++ [CallReset]))
     (CallAddInt 7%nat "count" UNSIGNED)).1 = None.
Proof.
  assert (H1 : CallAddInt 7%nat "count" UNSIGNED <> CallReset) by discriminate.
  assert (H2 : Z.land (call_flags (CallAddInt 7%nat "count" UNSIGNED))
                 (call_mask (CallAddInt 7%nat "count" UNSIGNED)) = 0)
    by reflexivity.
  split; [exact H1|]. split; [exact H2|].
  exact (proj2 (proj2 (proj2 (Reset_forgets sample_calls [] "count"))) _ H1 H2).
Defined.

(** ** Frames of [Configure] *)

Section Frame.

Context {float64 : Type} (ParseFloat : string -> option float64).

Lemma untouched_refl r (w : world float64) : untouched r w w.
Proof. repeat split. Qed.

Lemma untouched_trans r (w1 w2 w3 : world float64) :
  untouched r w1 w2 -> untouched r w2 w3 -> untouched r w1 w3.
Proof.
  intros (A1 & A2 & A3 & A4) (B1 & B2 & B3 & B4).
  repeat split; intros l Hl;
    [rewrite B1, A1|rewrite B2, A2|rewrite B3, A3|rewrite B4, A4]; auto.
Qed.

Lemma untouched_mem r (w w' : world float64) :
  mem w' = mem w -> untouched r w w'.
Proof. intros E. unfold untouched. rewrite E. repeat split. Qed.

Lemma assign_untouched r (m : gmap string loc) uname
    (wr : loc -> world float64 -> world float64) (w : world float64) e w' :
  (forall l, m !! uname = Some l -> untouched r w (wr l w)) ->
  assign m uname wr w = Returns (e, w') -> untouched r w w'.
Proof.
  intros H. unfold assign. destruct (m !! uname) as [l|]; [|discriminate].
  intros E. injection E as _ <-. apply H. reflexivity.
Qed.

Lemma fail_untouched r verbose err (w : world float64) e w' :
  fail verbose err w = Returns (e, w') -> untouched r w w'.
Proof.
  unfold fail. intros E. injection E as _ <-.
  apply untouched_mem, report_mem.
Qed.

Ltac other_cell :=
  match goal with
  | Hl : ~ targeted ?m ?l, Hm : ?m !! ?u = Some ?l0 |- _ =>
      cbn; apply lookup_insert_ne; intros ->; apply Hl; exists u; exact Hm
  end.

Lemma setOption_untouched r name value verbose (w : world float64) e w' :
  setOption ParseFloat r name value verbose w = Returns (e, w') ->
  untouched r w w'.
Proof.
  unfold setOption. destruct (option_flags r !! ToUpper name) as [flags|];
    [|apply fail_untouched].
  destruct (hasAttr flags STRING).
  { unfold setString. apply assign_untouched. intros l Hm.
    repeat split; intros l' Hl; try reflexivity. other_cell. }
  destruct (hasAttr flags INT).
  { unfold setInt. destruct (Atoi _); [|apply fail_untouched].
    apply assign_untouched. intros l Hm.
    repeat split; intros l' Hl; try reflexivity. other_cell. }
  destruct (hasAttr flags FLOAT).
  { unfold setFloat. destruct (ParseFloat _); [|apply fail_untouched].
    apply assign_untouched. intros l Hm.
    repeat split; intros l' Hl; try reflexivity. other_cell. }
  destruct (hasAttr flags BOOL); [|apply fail_untouched].
  unfold setBool.
  destruct (existsb _ boolean_trues);
    [|destruct (existsb _ boolean_falses); [|apply fail_untouched]];
    apply assign_untouched; intros l Hm;
    repeat split; intros l' Hl; try reflexivity; other_cell.
Qed.

Lemma scan_line_untouched r verbose line (w w' : world float64) :
  scan_line ParseFloat r verbose line w = Returns w' -> untouched r w w'.
Proof.
  unfold scan_line. destruct (classify line) as [| |key value|].
  - intros E. injection E as <-. apply untouched_refl.
  - intros E. injection E as <-. apply untouched_refl.
  - destruct (setOption ParseFloat r key value verbose w) as [[e w1]|] eqn:Hs;
      [|discriminate].
    intros E. injection E as <-. exact (setOption_untouched _ _ _ _ _ _ _ Hs).
  - intros E. injection E as <-. apply untouched_mem, report_mem.
Qed.

Lemma scan_untouched r verbose lines :
  forall w w' : world float64,
    scan ParseFloat r verbose lines w = Returns w' -> untouched r w w'.
Proof.
  induction lines as [|line rest IH]; intros w w'; cbn [scan].
  - intros E. injection E as <-. apply untouched_refl.
  - destruct (scan_line ParseFloat r verbose line w) as [w1|] eqn:Hl;
      [|discriminate].
    intros E. apply (untouched_trans r w w1 w').
    + exact (scan_line_untouched _ _ _ _ _ Hl).
    + exact (IH _ _ E).
Qed.

Lemma Configure_untouched (fs : filesystem) (r : registry)
    (files : list string) (verbose : bool) (w w' : world float64)
    (e : option error) :
  Configure ParseFloat fs r files verbose w = Returns (e, w') ->
  untouched r w w'.
Proof.
  unfold Configure.
  destruct (String.eqb (first_found fs files) EmptyString).
  { intros E. injection E as _ <-. apply untouched_refl. }
  destruct (os_Open fs (first_found fs files)) as [lines|];
    [|apply fail_untouched].
  destruct (scan ParseFloat r verbose lines w) as [w1|] eqn:Hs; [|discriminate].
  intros E. injection E as _ <-. exact (scan_untouched _ _ _ _ _ Hs).
Qed.

(** X14.  [Configure] writes through registered targets only: a
    variable that is not the target of an option of its type holds
    after the run what it held before, whatever the file holds and
    whether or not an error is returned. *)
Theorem Configure_writes_targets_only (fs : filesystem) (r : registry)
    (files : list string) (verbose : bool) (w w' : world float64)
    (e : option error) :
  Configure ParseFloat fs r files verbose w = Returns (e, w') ->
  untouched r w w'.
Proof. apply Configure_untouched. Qed.

(** The values that the variables receive do not depend on [verbose]. *)

Lemma same_outcome_fail vb1 vb2 err (w1 w2 : world float64) :
  mem w1 = mem w2 -> same_outcome (fail vb1 err w1) (fail vb2 err w2).
Proof.
  intros E. unfold fail. cbn. rewrite !report_mem. auto.
Qed.

Lemma same_outcome_assign (m : gmap string loc) uname
    (wr : loc -> world float64 -> world float64) (w1 w2 : world float64) :
  (forall l, mem (wr l w1) = mem (wr l w2)) ->
  same_outcome (assign m uname wr w1) (assign m uname wr w2).
Proof.
  intros H. unfold assign. destruct (m !! uname); cbn; auto.
Qed.

Lemma setOption_same r name value vb1 vb2 (w1 w2 : world float64) :
  mem w1 = mem w2 ->
  same_outcome (setOption ParseFloat r name value vb1 w1)
    (setOption ParseFloat r name value vb2 w2).
Proof.
  intros E. unfold setOption.
  destruct (option_flags r !! ToUpper name) as [flags|];
    [|apply same_outcome_fail, E].
  destruct (hasAttr flags STRING).
  { unfold setString. apply same_outcome_assign. intros l. cbn.
    rewrite E. reflexivity. }
  destruct (hasAttr flags INT).
  { unfold setInt. destruct (Atoi _); [|apply same_outcome_fail, E].
    apply same_outcome_assign. intros l. cbn. rewrite E. reflexivity. }
  destruct (hasAttr flags FLOAT).
  { unfold setFloat. destruct (ParseFloat _); [|apply same_outcome_fail, E].
    apply same_outcome_assign. intros l. cbn. rewrite E. reflexivity. }
  destruct (hasAttr flags BOOL); [|apply same_outcome_fail, E].
  unfold setBool.
  destruct (existsb _ boolean_trues);
    [|destruct (existsb _ boolean_falses); [|apply same_outcome_fail, E]];
    apply same_outcome_assign; intros l; cbn; rewrite E; reflexivity.
Qed.

Lemma scan_line_same r line vb1 vb2 (w1 w2 : world float64) :
  mem w1 = mem w2 ->
  same_scan (scan_line ParseFloat r vb1 line w1)
    (scan_line ParseFloat r vb2 line w2).
Proof.
  intros E. unfold scan_line. destruct (classify line) as [| |key value|].
  - exact E.
  - exact E.
  - pose proof (setOption_same r key value vb1 vb2 w1 w2 E) as H.
    destruct (setOption ParseFloat r key value vb1 w1) as [[e1 a]|],
      (setOption ParseFloat r key value vb2 w2) as [[e2 b]|]; cbn in *;
      tauto.
  - cbn. rewrite !report_mem. exact E.
Qed.

Lemma scan_same r lines vb1 vb2 :
  forall w1 w2 : world float64,
    mem w1 = mem w2 ->
    same_scan (scan ParseFloat r vb1 lines w1) (scan ParseFloat r vb2 lines w2).
Proof.
  induction lines as [|line rest IH]; intros w1 w2 E; cbn [scan].
  - exact E.
  - pose proof (scan_line_same r line vb1 vb2 w1 w2 E) as H.
    destruct (scan_line ParseFloat r vb1 line w1) as [a|],
      (scan_line ParseFloat r vb2 line w2) as [b|]; cbn in H;
      try contradiction; [apply IH, H|exact I].
Qed.

Lemma setOption_silent r name value (w : world float64) :
  silent w (setOption ParseFloat r name value false w).
Proof.
  unfold setOption, setString, setInt, setFloat, setBool, assign, fail.
  repeat match goal with
         | |- context [match ?x with _ => _ end] => destruct x
         end; reflexivity.
Qed.

Lemma scan_silent r lines :
  forall w w' : world float64,
    scan ParseFloat r false lines w = Returns w' -> stderr w' = stderr w.
Proof.
  induction lines as [|line rest IH]; intros w w'; cbn [scan].
  - intros E. injection E as <-. reflexivity.
  - unfold scan_line. destruct (classify line) as [| |key value|].
    + apply IH.
    + apply IH.
    + pose proof (setOption_silent r key value w) as H.
      destruct (setOption ParseFloat r key value false w) as [[e a]|];
        [|discriminate].
      cbn in H. intros E. rewrite (IH _ _ E). exact H.
    + apply IH.
Qed.

(** X15.  [verbose] decides about the diagnostics and about nothing
    else: with and without it [Configure] panics or returns alike, with
    the same error and the same values of all variables, and without it
    nothing is written to the error stream. *)
Theorem verbose_only_diagnostics (fs : filesystem) (r : registry)
    (files : list string) (w : world float64) :
  same_outcome (Configure ParseFloat fs r files true w)
    (Configure ParseFloat fs r files false w) /\
  silent w (Configure ParseFloat fs r files false w).
Proof.
  unfold Configure.
  destruct (String.eqb (first_found fs files) EmptyString).
  { cbn. auto. }
  destruct (os_Open fs (first_found fs files)) as [lines|].
  2:{ split; [apply same_outcome_fail; reflexivity|reflexivity]. }
  split.
  - pose proof (scan_same r lines true false w w eq_refl) as H.
    destruct (scan ParseFloat r true lines w) as [a|],
      (scan ParseFloat r false lines w) as [b|]; cbn in *; tauto.
  - pose proof (scan_silent r lines w) as H.
    destruct (scan ParseFloat r false lines w) as [b|]; cbn; [|exact I].
    apply H. reflexivity.
Qed.

Lemma classify_comment_or_blank (line : string) :
  is_comment line = true \/ is_blank line = true ->
  classify line = Comment \/ classify line = Blank.
Proof.
  unfold classify. rewrite comment_re_spec, nonblank_re_spec, negb_involutive.
  intros [H|H].
  - rewrite H. left. reflexivity.
  - destruct (is_comment line); [left; reflexivity|].
    rewrite H. right. reflexivity.
Qed.

(** X16.  A file made of comment lines and blank lines only changes
    nothing: [Configure] returns without error, no variable receives a
    value and nothing is written to the error stream, whatever is
    declared. *)
Theorem comments_and_blanks_ignored (fs : filesystem) (r : registry)
    (files : list string) (verbose : bool) (w : world float64)
    (lines : list string) :
  first_found fs files <> EmptyString ->
  os_Open fs (first_found fs files) = Some lines ->
  Forall (fun line => is_comment line = true \/ is_blank line = true) lines ->
  Configure ParseFloat fs r files verbose w = Returns (None, w).
Proof.
  intros Hne Ho Hall.
  rewrite (Configure_opened ParseFloat fs r files verbose w lines Hne Ho).
  assert (E : scan ParseFloat r verbose lines w = Returns w).
  { clear Ho. induction Hall as [|line rest Hl _ IH]; [reflexivity|].
    cbn [scan]. unfold scan_line.
    destruct (classify_comment_or_blank line Hl) as [-> | ->]; exact IH. }
  rewrite E. reflexivity.
Qed.



End Frame.

Lemma Configure_writes_targets_only_witness :
  Configure sample_floats sample_fs (run sample_calls) ["b.conf"] false
    sample_world =
    Returns (None, write_int 0%nat 42
                     (write_bool 2%nat true (write_int 3%nat 7 sample_world))) /\
  untouched (run sample_calls) sample_world
    (write_int 0%nat 42
       (write_bool 2%nat true (write_int 3%nat 7 sample_world))).
Proof.
  assert (H : Configure sample_floats sample_fs (run sample_calls) ["b.conf"]
                false sample_world =
              Returns (None, write_int 0%nat 42
                               (write_bool 2%nat true
                                  (write_int 3%nat 7 sample_world))))
    by reflexivity.
  split; [exact H|].
  exact (Configure_writes_targets_only sample_floats sample_fs
           (run sample_calls) ["b.conf"] false sample_world _ None H).
Defined.

Lemma comments_and_blanks_ignored_witness :
  first_found comment_fs ["c.conf"] <> EmptyString /\
  os_Open comment_fs (first_found comment_fs ["c.conf"]) =
    Some ["# comment"; ""; "   # x=7"; "  "] /\
  Forall (fun line => is_comment line = true \/ is_blank line = true)
    ["# comment"; ""; "   # x=7"; "  "] /\
  Configure sample_floats comment_fs (run sample_calls) ["c.conf"] true
    sample_world = Returns (None, sample_world).
Proof.
  assert (H1 : first_found comment_fs ["c.conf"] <> EmptyString) by discriminate.
  assert (H2 : os_Open comment_fs (first_found comment_fs ["c.conf"]) =
               Some ["# comment"; ""; "   # x=7"; "  "]) by reflexivity.
  assert (H3 : Forall (fun line => is_comment line = true \/ is_blank line = true)
                 ["# comment"; ""; "   # x=7"; "  "]).
  { repeat constructor; (left; reflexivity) || (right; reflexivity). }
  split; [exact H1|]. split; [exact H2|]. split; [exact H3|].
  exact (comments_and_blanks_ignored sample_floats comment_fs (run sample_calls)
           ["c.conf"] true sample_world _ H1 H2 H3).
Defined.


(** ** Entry lines *)

Lemma all_chars_app (p : cclass) (a b : string) :
  all_chars p (a +:+ b) = all_chars p a && all_chars p b.
Proof.
  induction a as [|c a IH]; [reflexivity|].
  rewrite append_cons. cbn [all_chars]. rewrite IH. apply andb_assoc.
Qed.

Lemma take_while_app (p : cclass) (a b : string) :
  all_chars p a = true -> take_while p (a +:+ b) = a +:+ take_while p b.
Proof.
  induction a as [|c a IH]; [reflexivity|].
  rewrite !append_cons. cbn [all_chars take_while]. intros H.
  apply andb_true_iff in H as [Hc Ha]. rewrite Hc, (IH Ha). reflexivity.
Qed.

Lemma drop_while_app (p : cclass) (a b : string) :
  all_chars p a = true -> drop_while p (a +:+ b) = drop_while p b.
Proof.
  induction a as [|c a IH]; [reflexivity|].
  rewrite !append_cons. cbn [all_chars drop_while]. intros H.
  apply andb_true_iff in H as [Hc Ha]. rewrite Hc. exact (IH Ha).
Qed.

Lemma all_chars_weaken (p q : cclass) (s : string) :
  (forall c, p c = true -> q c = true) ->
  all_chars p s = true -> all_chars q s = true.
Proof.
  intros H. induction s as [|c s IH]; [reflexivity|]. cbn [all_chars].
  intros E. apply andb_true_iff in E as [Hc Hs].
  rewrite (H c Hc), (IH Hs). reflexivity.
Qed.

Lemma append_assoc (a b c : string) : (a +:+ b) +:+ c = a +:+ (b +:+ c).
Proof.
  induction a as [|x a IH]; [reflexivity|].
  rewrite !append_cons, IH. reflexivity.
Qed.

(** A run of characters of [p] ends at the first character outside. *)
Lemma span_at (p : cclass) (a : string) (e : ascii) (v : string) :
  all_chars p a = true -> p e = false ->
  take_while p (a +:+ String e v) = a /\
  drop_while p (a +:+ String e v) = String e v.
Proof.
  intros Ha He. induction a as [|c a IH].
  - rewrite append_nil. cbn [take_while drop_while]. rewrite He. auto.
  - rewrite append_cons. cbn [all_chars take_while drop_while] in *.
    apply andb_true_iff in Ha as [Hc Ha]. rewrite Hc.
    destruct (IH Ha) as [-> ->]. auto.
Qed.

(** A text that is not empty ends with its last character. *)
Lemma last_char_split (s : string) :
  forall c, exists init,
    String c s = init +:+ last_char (String c s) /\
    last_char (String c s) <> EmptyString.
Proof.
  induction s as [|d s IH]; intros c.
  - exists EmptyString. split; [reflexivity|discriminate].
  - destruct (IH d) as (init & E & Hne). exists (String c init).
    rewrite last_char_cons. rewrite append_cons, <- E. split; [reflexivity|exact Hne].
Qed.

(** The key that the pattern captures ends the prefix, after white
    space only. *)
Lemma key_of_prefix_split (a : ascii) (pre : string) :
  exists ws,
    String a pre = ws +:+ key_of_prefix (String a pre) /\
    all_chars perl_space ws = true /\
    key_of_prefix (String a pre) <> EmptyString.
Proof.
  unfold key_of_prefix.
  destruct (drop_while perl_space (String a pre)) as [|c k] eqn:E.
  - destruct (last_char_split pre a) as (init & Hs & Hne).
    exists init. split; [exact Hs|]. split; [|exact Hne].
    apply drop_while_nil_all in E. rewrite Hs, all_chars_app in E.
    apply andb_true_iff in E. apply E.
  - exists (take_while perl_space (String a pre)). split; [|split].
    + rewrite <- E. symmetry. apply take_drop_while.
    + apply take_while_all.
    + discriminate.
Qed.

(** The classes of the lines in terms of their characters. *)
Lemma classify_shape (line : string) :
  all_chars any_char line = true ->
  classify line = classify_spec line.
Proof.
  intros H. rewrite classify_groups, comment_re_spec, nonblank_re_spec.
  rewrite negb_involutive, option_re_spec by exact H. reflexivity.
Qed.

(** X18.  What the scanning loop takes from an entry line is what the
    line is made of: when a line without line feed is classified as the
    entry of a key and a value, the line is white space, then the key,
    then [=], then the value, and the key is not empty and holds neither
    [:] nor [=].  In the other direction, a key that starts with a
    character other than white space and [#] and holds neither [:] nor
    [=], written after any white space and followed by [=] and a value,
    is read back as this key and this value. *)
Theorem entry_round_trip :
  (forall line key value,
     all_chars any_char line = true ->
     classify line = Entry key value ->
     exists ws,
       all_chars perl_space ws = true /\
       line = ws +:+ key +:+ "=" +:+ value /\
       key <> EmptyString /\
       all_chars not_colon_eq key = true) /\
  (forall ws c key value,
     all_chars perl_space ws = true ->
     perl_space c = false ->
     lit "#" c = false ->
     all_chars not_colon_eq (String c key) = true ->
     all_chars any_char (ws +:+ String c key +:+ "=" +:+ value) = true ->
     classify (ws +:+ String c key +:+ "=" +:+ value) =
       Entry (String c key) value).
Proof.
  split.
  - intros line key value Hlf Hc.
    rewrite (classify_shape line Hlf) in Hc. unfold classify_spec in Hc.
    destruct (is_comment line); [discriminate Hc|].
    destruct (is_blank line); [discriminate Hc|].
    unfold entry_of in Hc.
    pose proof (take_drop_while not_colon_eq line) as Hline.
    pose proof (take_while_all not_colon_eq line) as Hall.
    destruct (take_while not_colon_eq line) as [|a pre]; [discriminate Hc|].
    destruct (drop_while not_colon_eq line) as [|e v]; [discriminate Hc|].
    destruct (lit "=" e) eqn:He; [|discriminate Hc].
    injection Hc as <- <-.
    unfold lit in He. apply Ascii.eqb_eq in He. subst e.
    destruct (key_of_prefix_split a pre) as (ws & Hs & Hws & Hne).
    remember (key_of_prefix (String a pre)) as k eqn:Hk. clear Hk.
    exists ws. split; [exact Hws|]. split; [|split; [exact Hne|]].
    + rewrite <- Hline, Hs. rewrite append_assoc. reflexivity.
    + rewrite Hs, all_chars_app in Hall. apply andb_true_iff in Hall.
      apply Hall.
  - intros ws c key value Hws Hsp Hhash Hkey Hlf.
    rewrite (classify_shape _ Hlf). unfold classify_spec, is_comment, is_blank.
    rewrite (drop_while_app perl_space ws _ Hws).
    rewrite append_cons. cbn [drop_while]. rewrite Hsp, Hhash.
    rewrite all_chars_app. cbn [all_chars]. rewrite Hsp, andb_false_r.
    rewrite <- append_cons, <- append_assoc.
    assert (HP : all_chars not_colon_eq (ws +:+ String c key) = true).
    { rewrite all_chars_app, Hkey, andb_true_r.
      exact (all_chars_weaken _ _ ws space_not_colon_eq Hws). }
    assert (Hk : key_of_prefix (ws +:+ String c key) = String c key).
    { unfold key_of_prefix. rewrite (drop_while_app perl_space ws _ Hws).
      cbn [drop_while]. rewrite Hsp. reflexivity. }
    destruct (span_at not_colon_eq (ws +:+ String c key) "="%char value HP
                eq_refl) as [Htw Hdw].
    unfold entry_of.
    change ("=" +:+ value) with (String "="%char value).
    rewrite Htw, Hdw.
    destruct (ws +:+ String c key) as [|a pre] eqn:E.
    { destruct ws; discriminate E. }
    change (lit "=" "="%char) with true. cbv iota. rewrite Hk. reflexivity.
Qed.

Lemma entry_round_trip_witness :
  (all_chars any_char "  verb = swallow" = true /\
   classify "  verb = swallow" = Entry "verb " " swallow" /\
   exists ws,
     all_chars perl_space ws = true /\
     "  verb = swallow" = ws +:+ "verb " +:+ "=" +:+ " swallow" /\
     "verb " <> EmptyString /\
     all_chars not_colon_eq "verb " = true) /\
  (all_chars perl_space "  " = true /\
   perl_space "v"%char = false /\
   lit "#" "v"%char = false /\
   all_chars not_colon_eq "verb" = true /\
   all_chars any_char ("  " +:+ "verb" +:+ "=" +:+ "a=b") = true /\
   classify ("  " +:+ "verb" +:+ "=" +:+ "a=b") = Entry "verb" "a=b").
Proof.
  assert (H1 : all_chars any_char "  verb = swallow" = true) by reflexivity.
  assert (H2 : classify "  verb = swallow" = Entry "verb " " swallow")
    by reflexivity.
  assert (H3 : all_chars perl_space "  " = true) by reflexivity.
  assert (H4 : perl_space "v"%char = false) by reflexivity.
  assert (H5 : lit "#" "v"%char = false) by reflexivity.
  assert (H6 : all_chars not_colon_eq "verb" = true) by reflexivity.
  assert (H7 : all_chars any_char ("  " +:+ "verb" +:+ "=" +:+ "a=b") = true)
    by reflexivity.
  split.
  - split; [exact H1|]. split; [exact H2|].
    exact (proj1 entry_round_trip "  verb = swallow" "verb " " swallow" H1 H2).
  - split; [exact H3|]. split; [exact H4|]. split; [exact H5|].
    split; [exact H6|]. split; [exact H7|].
    exact (proj2 entry_round_trip "  " "v"%char "erb" "a=b" H3 H4 H5 H6 H7).
Defined.

(** ** The example program *)

Lemma example_registry (earlier : list call) :
  run (earlier ++ Example.calls) = run Example.calls.
Proof. rewrite run_app. reflexivity. Qed.

(** X19.  The [init] of the example program, after any registration
    calls of other packages: its six options are declared with their
    types, [Configure] never panics, whatever the file system holds,
    and writes to the targets of the six options only; when
    [example.conf] does not exist the variables keep their values and
    the error is reported on the error stream. *)
Theorem example_init_safe {float64 : Type}
    (ParseFloat : string -> option float64) (earlier : list call)
    (fs : filesystem) (w : world float64) :
  (forall name ty,
     In (name, ty) Example.options ->
     OptionType (run (earlier ++ Example.calls)) name = ty) /\
  (exists w',
     Example.init ParseFloat earlier fs w = Returns w' /\
     untouched (run (earlier ++ Example.calls)) w w') /\
  (fs_exists fs "example.conf" = false ->
   Example.init ParseFloat earlier fs w =
     Returns (report true
                ("Error reading configuration file: " +:+
                 Error NoConfigFileFound +:+ newline) w)).
Proof.
  rewrite example_registry. unfold Example.init. rewrite example_registry.
  split; [|split].
  - intros name ty Hin. cbn [In Example.options] in Hin.
    repeat destruct Hin as [Hin|Hin]; try contradiction;
      injection Hin as <- <-; reflexivity.
  - assert (Hwf : well_formed (run Example.calls)).
    { apply well_formed_run. repeat constructor. }
    destruct (Configure ParseFloat fs (run Example.calls) ["example.conf"] true w)
      as [[e w1]|] eqn:E.
    + pose proof (Configure_untouched ParseFloat _ _ _ _ _ _ _ E) as Hu.
      destruct e as [err|]; eexists; (split; [reflexivity|]); [|exact Hu].
      apply (untouched_trans _ w w1); [exact Hu|].
      apply untouched_mem, report_mem.
    + exfalso. unfold Configure in E.
      destruct (String.eqb _ _); [discriminate E|].
      destruct (os_Open _ _) as [lines|]; [|discriminate E].
      destruct (scan_returns ParseFloat _ true lines Hwf w) as (w' & Hs).
      rewrite Hs in E. discriminate E.
  - intros Hno. unfold Configure. cbn [first_found os_Stat]. rewrite Hno.
    reflexivity.
Qed.

Lemma example_init_safe_witness :
  fs_exists sample_fs "example.conf" = false /\
  Example.init sample_floats sample_calls sample_fs sample_world =
    Returns (report true
               ("Error reading configuration file: " +:+
                Error NoConfigFileFound +:+ newline) sample_world).
Proof.
  assert (H : fs_exists sample_fs "example.conf" = false) by reflexivity.
  split; [exact H|].
  exact (proj2 (proj2 (example_init_safe sample_floats sample_calls sample_fs
                         sample_world)) H).
Defined.

(** ** The stored text of a String option *)



















(** ** Integer options registered with the STRING type bit *)

(** The String branch of [setOption] on a name that [str_map] does not
    hold writes through the nil pointer. *)
Lemma setOption_string_bit_panics {float64 : Type}
    (ParseFloat : string -> option float64) (r : registry)
    (name value : string) (verbose : bool) (w : world float64) (flags : Z) :
  option_flags r !! ToUpper name = Some flags ->
  hasAttr flags STRING = true ->
  str_map r !! ToUpper name = None ->
  setOption ParseFloat r name value verbose w = Panics.
Proof.
  intros Hf Hs Hm. unfold setOption. rewrite Hf, Hs.
  unfold setString, assign. rewrite Hm. reflexivity.
Qed.

(** [AddInt] under a free name with the type bit STRING among its
    flags. *)
Lemma AddInt_type_bit (r : registry) (t : loc) (n : string) (fl : Z) :
  optionExists r n = false ->
  Z.land fl disallowed_int_opts = 0 ->
  hasAttr fl STRING = true ->
  (AddInt t n fl r).1 = None /\
  option_flags (AddInt t n fl r).2 !! ToUpper n = Some (Z.lor fl INT) /\
  hasAttr (Z.lor fl INT) STRING = true /\
  str_map (AddInt t n fl r).2 !! ToUpper n = None /\
  int_map (AddInt t n fl r).2 !! ToUpper n = Some t /\
  OptionType (AddInt t n fl r).2 n = INT.
Proof.
  intros Hfree Hmask Hbit.
  assert (Hnone : forall ty, target_map ty r !! ToUpper n = None).
  { apply declarations_0_maps, (declarations_insert r n EmptyString).
    rewrite optionExists_upper. exact Hfree. }
  unfold AddInt. rewrite Hmask, optionExists_upper, Hfree. cbn [negb fst snd].
  change (0 =? 0) with true. cbn [negb fst snd str_map int_map option_flags].
  split; [reflexivity|]. split; [apply lookup_insert_eq|].
  split.
  { unfold hasAttr in *. rewrite Z.land_lor_distr_l.
    change (Z.land INT STRING) with 0. rewrite Z.lor_0_r. exact Hbit. }
  split; [exact (Hnone TString)|]. split; [apply lookup_insert_eq|].
  unfold OptionType. cbn [str_map int_map].
  pose proof (Hnone TString) as Hs. cbn [target_map] in Hs. rewrite Hs.
  rewrite lookup_insert_eq.
  rewrite bool_decide_eq_false_2 by (intros [x Hx]; discriminate Hx).
  rewrite bool_decide_eq_true_2 by eauto. reflexivity.
Qed.

(** A scan that reaches a line on which [scan_line] panics panics. *)
Lemma scan_panics {float64 : Type} (ParseFloat : string -> option float64)
    (r : registry) (verbose : bool) (line : string) (lines : list string) :
  In line lines ->
  (forall w : world float64, scan_line ParseFloat r verbose line w = Panics) ->
  forall w : world float64, scan ParseFloat r verbose lines w = Panics.
Proof.
  intros Hin Hp. induction lines as [|l rest IH]; [contradiction|].
  intros w. cbn [scan].
  destruct (scan_line ParseFloat r verbose l w) as [w'|] eqn:E; [|reflexivity].
  destruct Hin as [->|Hin]; [rewrite Hp in E; discriminate E|].
  apply IH, Hin.
Qed.

(** C6 (the code at the failing input).  [AddInt] under a free name
    accepts a flags argument that holds the type bit STRING and
    declares an Integer option: [OptionType] returns INT and [int_map]
    holds the target.  For such an option [setOption] takes no token
    and writes no integer, whatever the value: it runs the String
    branch and panics on the nil pointer that [str_map] gives. *)
Theorem int_option_type_bit_panics (r : registry) (t : loc) (n : string)
    (fl : Z) :
  optionExists r n = false ->
  Z.land fl disallowed_int_opts = 0 ->
  hasAttr fl STRING = true ->
  (AddInt t n fl r).1 = None /\
  OptionType (AddInt t n fl r).2 n = INT /\
  int_map (AddInt t n fl r).2 !! ToUpper n = Some t /\
  forall (float64 : Type) (ParseFloat : string -> option float64)
         (value : string) (verbose : bool) (w : world float64),
    setOption ParseFloat (AddInt t n fl r).2 n value verbose w = Panics.
Proof.
  intros Hfree Hmask Hbit.
  destruct (AddInt_type_bit r t n fl Hfree Hmask Hbit)
    as (Hok & Hf & Hs & Hstr & Hint & Hty).
  split; [exact Hok|]. split; [exact Hty|]. split; [exact Hint|].
  intros float64 ParseFloat value verbose w.
  exact (setOption_string_bit_panics ParseFloat _ n value verbose w _ Hf Hs Hstr).
Qed.

Lemma int_option_type_bit_panics_witness :
  optionExists Reset "a" = false /\
  Z.land STRING disallowed_int_opts = 0 /\
  hasAttr STRING STRING = true /\
  OptionType (AddInt 0%nat "a" STRING Reset).2 "a" = INT /\
  setOption sample_floats (AddInt 0%nat "a" STRING Reset).2 "a" "1" true
    sample_world = Panics.
Proof.
  assert (H1 : optionExists Reset "a" = false) by reflexivity.
  assert (H2 : Z.land STRING disallowed_int_opts = 0) by reflexivity.
  assert (H3 : hasAttr STRING STRING = true) by reflexivity.
  split; [exact H1|]. split; [exact H2|]. split; [exact H3|].
  split.
  - exact (proj1 (proj2 (int_option_type_bit_panics Reset 0%nat "a" STRING
                           H1 H2 H3))).
  - exact (proj2 (proj2 (proj2 (int_option_type_bit_panics Reset 0%nat "a"
                                  STRING H1 H2 H3)))
             Z sample_floats "1" true sample_world).
Defined.

(** C2 (the code at the failing input).  After [AddInt] has accepted
    the type bit STRING among the flags of an option, a file that opens
    and holds an entry of that option anywhere makes [Configure] panic:
    it returns neither success nor an error, whatever the other lines
    hold. *)
Theorem Configure_panics_after_type_bit {float64 : Type}
    (ParseFloat : string -> option float64) (r : registry) (t : loc)
    (n : string) (fl : Z) (fs : filesystem) (files : list string)
    (verbose : bool) (w : world float64) (lines : list string)
    (line key value : string) :
  optionExists r n = false ->
  Z.land fl disallowed_int_opts = 0 ->
  hasAttr fl STRING = true ->
  first_found fs files <> EmptyString ->
  os_Open fs (first_found fs files) = Some lines ->
  In line lines ->
  classify line = Entry key value ->
  ToUpper key = ToUpper n ->
  (AddInt t n fl r).1 = None /\
  Configure ParseFloat fs (AddInt t n fl r).2 files verbose w = Panics.
Proof.
  intros Hfree Hmask Hbit Hne Ho Hin Hc Hkey.
  destruct (AddInt_type_bit r t n fl Hfree Hmask Hbit)
    as (Hok & Hf & Hs & Hstr & _).
  split; [exact Hok|].
  rewrite (Configure_opened ParseFloat fs _ files verbose w lines Hne Ho).
  rewrite (scan_panics ParseFloat _ verbose line lines Hin); [reflexivity|].
  intros w0. unfold scan_line. rewrite Hc.
  rewrite <- Hkey in Hf, Hstr.
  rewrite (setOption_string_bit_panics ParseFloat _ key value verbose w0 _
             Hf Hs Hstr).
  reflexivity.
Qed.

Lemma Configure_panics_after_type_bit_witness :
  optionExists Reset "a" = false /\
  Z.land STRING disallowed_int_opts = 0 /\
  hasAttr STRING STRING = true /\
  first_found mistyped_fs ["m.conf"] <> EmptyString /\
  os_Open mistyped_fs (first_found mistyped_fs ["m.conf"]) =
    Some ["# sample"; "a=1"] /\
  In "a=1" ["# sample"; "a=1"] /\
  classify "a=1" = Entry "a" "1" /\
  ToUpper "a" = ToUpper "a" /\
  (AddInt 0%nat "a" STRING Reset).1 = None /\
  Configure sample_floats mistyped_fs (AddInt 0%nat "a" STRING Reset).2
    ["m.conf"] false sample_world = Panics.
Proof.
  assert (H1 : optionExists Reset "a" = false) by reflexivity.
  assert (H2 : Z.land STRING disallowed_int_opts = 0) by reflexivity.
  assert (H3 : hasAttr STRING STRING = true) by reflexivity.
  assert (H4 : first_found mistyped_fs ["m.conf"] <> EmptyString)
    by discriminate.
  assert (H5 : os_Open mistyped_fs (first_found mistyped_fs ["m.conf"]) =
               Some ["# sample"; "a=1"]) by reflexivity.
  assert (H6 : In "a=1" ["# sample"; "a=1"]) by (right; left; reflexivity).
  assert (H7 : classify "a=1" = Entry "a" "1") by reflexivity.
  assert (H8 : ToUpper "a" = ToUpper "a") by reflexivity.
  split; [exact H1|]. split; [exact H2|]. split; [exact H3|].
  split; [exact H4|]. split; [exact H5|]. split; [exact H6|].
  split; [exact H7|]. split; [exact H8|].
  exact (Configure_panics_after_type_bit sample_floats Reset 0%nat "a" STRING
           mistyped_fs ["m.conf"] false sample_world _ "a=1" "a" "1"
           H1 H2 H3 H4 H5 H6 H7 H8).
Defined.
